(** * Bookshelf manager: a shallow embedding of [src/main.ts]

    The development follows the source file top to bottom: the [Book]
    record and its builder, the [Library] with its observers and its
    persisted snapshot, the two commands, and the three search strategies.

    Conventions of the embedding.
    - A JavaScript string is a [string]: a sequence of code units below 256
      (the Latin-1 slice of UTF-16).  [toLowerCase], the white space of
      [parseInt] and the escapes of [JSON.stringify] are the ECMAScript
      ones restricted to that slice.
    - A [number] that holds a year is a [Z]; the rounding of IEEE doubles
      is not represented, so the model is exact for safe integers.
    - Objects that are compared by reference only ([IObserver]) are
      represented by their reference, a [nat].
    - The browser is the record [World]: the [localStorage] map, the lines
      written with [console.error], and the calls made to the observers'
      [update] method, each in chronological order. *)

From Stdlib Require Import ZArith List Ascii String Bool Lia.
From Stdlib Require Import Decimal DecimalPos DecimalN DecimalZ.
From stdpp Require Import base decidable option list strings gmap.

Set Warnings "-register-all".

Local Open Scope Z_scope.
Local Open Scope string_scope.

(** ** Characters and strings *)

Module Char.

Definition code (c : ascii) : N := N_of_ascii c.

(** Upper-case letters of the Latin-1 range: A-Z, and U+00C0 to U+00DE
    without the multiplication sign U+00D7. *)
Definition is_upper (c : ascii) : bool :=
  let n := code c in
  ((65 <=? n) && (n <=? 90)
   || (192 <=? n) && (n <=? 222) && negb (n =? 215))%N.

(** [String.prototype.toLowerCase] on one code unit. *)
Definition toLowerCase (c : ascii) : ascii :=
  if is_upper c then ascii_of_N (code c + 32) else c.

(** The quotation mark, U+0022. *)
Definition dquote : ascii := Ascii false true false false false true false false.

(** Decimal digits. *)
Definition is_digit (c : ascii) : bool :=
  let n := code c in ((48 <=? n) && (n <=? 57))%N.

(** Hexadecimal digits, either case. *)
Definition hex_value (c : ascii) : option Z :=
  let n := code c in
  if ((48 <=? n) && (n <=? 57))%N then Some (Z.of_N n - 48)
  else if ((97 <=? n) && (n <=? 102))%N then Some (Z.of_N n - 87)
  else if ((65 <=? n) && (n <=? 70))%N then Some (Z.of_N n - 55)
  else None.

(** [StrWhiteSpaceChar]: TAB, LF, VT, FF, CR, SP and NBSP are the ones
    below 256. *)
Definition is_StrWhiteSpaceChar (c : ascii) : bool :=
  let n := code c in
  ((9 <=? n) && (n <=? 13) || (n =? 32) || (n =? 160))%N.

End Char.

Module Str.

Fixpoint toLowerCase (s : string) : string :=
  match s with
  | EmptyString => EmptyString
  | String c s' => String (Char.toLowerCase c) (toLowerCase s')
  end.

(** [startsWith q s]: [q] is a prefix of [s]. *)
Fixpoint startsWith (q s : string) : bool :=
  match q, s with
  | EmptyString, _ => true
  | String a q', String b s' => if decide (a = b) then startsWith q' s' else false
  | String _ _, EmptyString => false
  end.

(** [s.includes(q)]: [q] occurs in [s] at some index. *)
Fixpoint includes (s q : string) : bool :=
  startsWith q s
  || match s with
     | EmptyString => false
     | String _ s' => includes s' q
     end.

(** A JavaScript string is truthy unless it is empty. *)
Definition truthy (s : string) : bool :=
  match s with EmptyString => false | String _ _ => true end.

End Str.

(** ** Book Object (Builder) *)

Record Book := mkBook {
  title : string;
  author : string;
  year : Z;
  id : string;
  genre : option string;     (* [genre?: string]; [None] is [undefined] *)
}.

#[global] Instance Book_eq_dec : EqDecision Book.
Proof. solve_decision. Defined.

(** [new Book(title, author, year, id)]: the constructor leaves [genre]
    unset. *)
Definition Book_new (t a : string) (y : Z) (i : string) : Book :=
  {| title := t; author := a; year := y; id := i; genre := None |}.

Module BookBuilder.

Record t := mk {
  b_title : string;
  b_author : string;
  b_year : Z;
  b_id : string;
  b_genre : option string;
}.

Definition new (ti a : string) (y : Z) (i : string) : t :=
  {| b_title := ti; b_author := a; b_year := y; b_id := i; b_genre := None |}.

Definition setGenre (g : string) (b : t) : t :=
  {| b_title := b_title b; b_author := b_author b; b_year := b_year b;
     b_id := b_id b; b_genre := Some g |}.

Definition build (b : t) : Book :=
  let book := Book_new (b_title b) (b_author b) (b_year b) (b_id b) in
  {| title := title book; author := author book; year := year book;
     id := id book; genre := b_genre b |}.

End BookBuilder.

(** ** JSON: the two built-ins the library calls

    [JSON.stringify] is needed at one type only, an array of [Book]
    objects, and is written for that type.  [JSON.parse] is the whole
    grammar of ECMA-404, since the library hands it whatever the store
    holds. *)

Module JSON.

Local Open Scope char_scope.
Local Open Scope list_scope.

Abbreviation text := (list ascii).

(** *** Values produced by [JSON.parse]

    A parsed string is a list of code units: a [\u] escape can name any
    16-bit unit.  A number is kept as its decimal reading [m * 10^e]. *)
Inductive value :=
| Null
| Bool (b : bool)
| Num (m e : Z)
| Str (s : list N)
| Arr (l : list value)
| Obj (l : list (list N * value)).

(** *** Serialisation *)

Definition hex_digit (n : N) : ascii :=
  if (n <? 10)%N then ascii_of_N (48 + n) else ascii_of_N (87 + n).

(** [QuoteJSONString], one code unit at a time. *)
Definition quote_char (c : ascii) : text :=
  let n := Char.code c in
  if (n =? 8)%N then ["\"; "b"]
  else if (n =? 9)%N then ["\"; "t"]
  else if (n =? 10)%N then ["\"; "n"]
  else if (n =? 12)%N then ["\"; "f"]
  else if (n =? 13)%N then ["\"; "r"]
  else if (n =? 34)%N then ["\"; Char.dquote]
  else if (n =? 92)%N then ["\"; "\"]
  else if (n <? 32)%N then
    ["\"; "u"; "0"; "0"; hex_digit (n / 16); hex_digit (n mod 16)]
  else [c].

Fixpoint quote_chars (s : string) : text :=
  match s with
  | EmptyString => []
  | String c s' => quote_char c ++ quote_chars s'
  end.

Definition QuoteJSONString (s : string) : text :=
  Char.dquote :: quote_chars s ++ [Char.dquote].

Fixpoint uint_text (d : uint) : text :=
  match d with
  | Nil => []
  | D0 d => "0" :: uint_text d
  | D1 d => "1" :: uint_text d
  | D2 d => "2" :: uint_text d
  | D3 d => "3" :: uint_text d
  | D4 d => "4" :: uint_text d
  | D5 d => "5" :: uint_text d
  | D6 d => "6" :: uint_text d
  | D7 d => "7" :: uint_text d
  | D8 d => "8" :: uint_text d
  | D9 d => "9" :: uint_text d
  end.

(** [Number::toString] on an integer: its decimal digits, with a minus
    sign below zero. *)
Definition NumberToString (z : Z) : text :=
  match z with
  | Z0 => ["0"]
  | Zpos p => uint_text (Pos.to_uint p)
  | Zneg p => "-" :: uint_text (Pos.to_uint p)
  end.

(** A member of an object: the quoted name, a colon, the value. *)
Definition member (k : string) (v : text) : text :=
  QuoteJSONString k ++ ":" :: v.

(** [SerializeJSONObject] on a [Book]: the own properties in creation
    order; a property whose value is [undefined] is left out. *)
Definition stringify_Book (b : Book) : text :=
  "{" :: member "title" (QuoteJSONString (title b))
  ++ "," :: member "author" (QuoteJSONString (author b))
  ++ "," :: member "year" (NumberToString (year b))
  ++ "," :: member "id" (QuoteJSONString (id b))
  ++ match genre b with
     | Some g => "," :: member "genre" (QuoteJSONString g)
     | None => []
     end
  ++ ["}"].

(** [SerializeJSONArray]: the elements separated by commas. *)
Fixpoint stringify_elements (l : list Book) : text :=
  match l with
  | [] => []
  | [b] => stringify_Book b
  | b :: l' => stringify_Book b ++ "," :: stringify_elements l'
  end.

Definition stringify_text (l : list Book) : text :=
  "[" :: stringify_elements l ++ ["]"].

(** [JSON.stringify(books)]. *)
Definition stringify (l : list Book) : string :=
  string_of_list_ascii (stringify_text l).

(** *** Parsing *)

Inductive result (A : Type) :=
| Ok (a : A)
| SyntaxError
| OutOfFuel.
Arguments Ok {A} a.
Arguments SyntaxError {A}.
Arguments OutOfFuel {A}.

Definition bind {A B} (r : result A) (k : A -> result B) : result B :=
  match r with
  | Ok a => k a
  | SyntaxError => SyntaxError
  | OutOfFuel => OutOfFuel
  end.

(** JSON white space: space, tab, line feed, carriage return. *)
Definition is_ws (c : ascii) : bool :=
  let n := Char.code c in
  ((n =? 32) || (n =? 9) || (n =? 10) || (n =? 13))%N.

Fixpoint skip_ws (s : text) : text :=
  match s with
  | c :: r => if is_ws c then skip_ws r else s
  | [] => []
  end.

Definition digit_of_char (c : ascii) : option (uint -> uint) :=
  match c with
  | "0" => Some D0 | "1" => Some D1 | "2" => Some D2 | "3" => Some D3
  | "4" => Some D4 | "5" => Some D5 | "6" => Some D6 | "7" => Some D7
  | "8" => Some D8 | "9" => Some D9
  | _ => None
  end.

(** The longest run of decimal digits at the head of the text. *)
Fixpoint scan_uint (s : text) : uint * text :=
  match s with
  | c :: r =>
      match digit_of_char c with
      | Some d => let (u, r') := scan_uint r in (d u, r')
      | None => (Nil, s)
      end
  | [] => (Nil, [])
  end.

Definition scan_frac (s : text) : result (uint * text) :=
  match s with
  | "." :: r =>
      match scan_uint r with
      | (Nil, _) => SyntaxError
      | (f, r') => Ok (f, r')
      end
  | _ => Ok (Nil, s)
  end.

Definition scan_exp_digits (neg : bool) (s : text) : result (Z * text) :=
  match scan_uint s with
  | (Nil, _) => SyntaxError
  | (x, r) => Ok (if neg then - Z.of_uint x else Z.of_uint x, r)
  end.

Definition scan_exp (s : text) : result (Z * text) :=
  match s with
  | c :: r =>
      if decide (c = "e" \/ c = "E") then
        match r with
        | "+" :: r' => scan_exp_digits false r'
        | "-" :: r' => scan_exp_digits true r'
        | _ => scan_exp_digits false r
        end
      else Ok (0, s)
  | [] => Ok (0, s)
  end.

(** A JSON number without its sign: [int frac? exp?]. *)
Definition parse_unsigned (neg : bool) (s : text) : result (value * text) :=
  match scan_uint s with
  | (Nil, _) => SyntaxError
  | (D0 (D0 _ | D1 _ | D2 _ | D3 _ | D4 _ | D5 _ | D6 _ | D7 _ | D8 _ | D9 _), _) =>
      SyntaxError
  | (i, r1) =>
      bind (scan_frac r1) (fun '(f, r2) =>
      bind (scan_exp r2) (fun '(x, r3) =>
      let m := Z.of_uint (Decimal.app i f) in
      Ok (Num (if neg then - m else m) (x - Z.of_nat (nb_digits f)), r3)))
  end.

Definition parse_number (s : text) : result (value * text) :=
  match s with
  | "-" :: r => parse_unsigned true r
  | _ => parse_unsigned false s
  end.

Definition simple_escape (c : ascii) : option N :=
  if decide (c = Char.dquote) then Some 34%N
  else match c with
       | "\" => Some 92%N
       | "/" => Some 47%N
       | "b" => Some 8%N
       | "f" => Some 12%N
       | "n" => Some 10%N
       | "r" => Some 13%N
       | "t" => Some 9%N
       | _ => None
       end.

Definition hex4 (a b c d : ascii) : option N :=
  match Char.hex_value a, Char.hex_value b, Char.hex_value c, Char.hex_value d with
  | Some x, Some y, Some z, Some w => Some (Z.to_N (((x * 16 + y) * 16 + z) * 16 + w))
  | _, _, _, _ => None
  end.

Definition cons_unit (u : N) (r : result (list N * text)) : result (list N * text) :=
  bind r (fun '(us, rest) => Ok (u :: us, rest)).

(** The characters of a string, after its opening quote, up to and
    including the closing one. *)
Fixpoint parse_chars (s : text) : result (list N * text) :=
  match s with
  | [] => SyntaxError
  | c :: r =>
      if decide (c = Char.dquote) then Ok ([], r)
      else if decide (c = "\") then
        match r with
        | [] => SyntaxError
        | e :: r1 =>
            match simple_escape e with
            | Some u => cons_unit u (parse_chars r1)
            | None =>
                if decide (e = "u") then
                  match r1 with
                  | a :: b :: c' :: d :: r2 =>
                      match hex4 a b c' d with
                      | Some u => cons_unit u (parse_chars r2)
                      | None => SyntaxError
                      end
                  | _ => SyntaxError
                  end
                else SyntaxError
            end
        end
      else if (Char.code c <? 32)%N then SyntaxError
      else cons_unit (Char.code c) (parse_chars r)
  end.

Definition parse_literal (s : text) : result (value * text) :=
  match s with
  | "t" :: "r" :: "u" :: "e" :: r => Ok (Bool true, r)
  | "f" :: "a" :: "l" :: "s" :: "e" :: r => Ok (Bool false, r)
  | "n" :: "u" :: "l" :: "l" :: r => Ok (Null, r)
  | _ => SyntaxError
  end.

(** [expect c s]: the text after [c], when [c] is the next character of
    [s] that is not white space. *)
Definition expect (c : ascii) (s : text) : option text :=
  match skip_ws s with
  | c' :: r => if decide (c' = c) then Some r else None
  | [] => None
  end.

(** Recursive descent.  Every call spends one unit of fuel; [parse]
    below supplies enough of it for any text. *)
Fixpoint parse_value (n : nat) (s : text) {struct n} : result (value * text) :=
  match n with
  | O => OutOfFuel
  | S n =>
      match skip_ws s with
      | [] => SyntaxError
      | c :: r =>
          if decide (c = "[") then
            match expect "]" r with
            | Some r' => Ok (Arr [], r')
            | None => parse_elements n r []
            end
          else if decide (c = "{") then
            match expect "}" r with
            | Some r' => Ok (Obj [], r')
            | None => parse_members n r []
            end
          else if decide (c = Char.dquote) then
            bind (parse_chars r) (fun '(us, r') => Ok (Str us, r'))
          else if bool_decide (c = "-") || Char.is_digit c then
            parse_number (c :: r)
          else parse_literal (c :: r)
      end
  end
with parse_elements (n : nat) (s : text) (acc : list value) {struct n}
  : result (value * text) :=
  match n with
  | O => OutOfFuel
  | S n =>
      bind (parse_value n s) (fun '(v, r) =>
      match expect "," r with
      | Some r' => parse_elements n r' (v :: acc)
      | None =>
          match expect "]" r with
          | Some r' => Ok (Arr (rev (v :: acc)), r')
          | None => SyntaxError
          end
      end)
  end
with parse_members (n : nat) (s : text) (acc : list (list N * value)) {struct n}
  : result (value * text) :=
  match n with
  | O => OutOfFuel
  | S n =>
      match expect Char.dquote s with
      | Some r =>
          bind (parse_chars r) (fun '(k, r1) =>
          match expect ":" r1 with
          | Some r2 =>
              bind (parse_value n r2) (fun '(v, r3) =>
              match expect "," r3 with
              | Some r4 => parse_members n r4 ((k, v) :: acc)
              | None =>
                  match expect "}" r3 with
                  | Some r4 => Ok (Obj (rev ((k, v) :: acc)), r4)
                  | None => SyntaxError
                  end
              end)
          | None => SyntaxError
          end)
      | None => SyntaxError
      end
  end.

Definition fuel_for (s : text) : nat := 2 * length s + 1.

(** A JSON text is one value, with white space around it. *)
Definition parse_text (s : text) : result value :=
  bind (parse_value (fuel_for s) s) (fun '(v, r) =>
  match skip_ws r with
  | [] => Ok v
  | _ :: _ => SyntaxError
  end).

(** [JSON.parse(text)]: [None] stands for the [SyntaxError] it throws. *)
Definition parse (s : string) : option value :=
  match parse_text (list_ascii_of_string s) with
  | Ok v => Some v
  | _ => None
  end.

(** *** Reading a parsed value *)

Definition units (s : string) : list N := map Char.code (list_ascii_of_string s).

(** The own property [k] of an object: the last member of that name. *)
Fixpoint own_property (k : list N) (l : list (list N * value)) : option value :=
  match l with
  | [] => None
  | (k', v) :: l' =>
      match own_property k l' with
      | Some v' => Some v'
      | None => if decide (k' = k) then Some v else None
      end
  end.

End JSON.

(** ** Observer: the library and the browser around it *)

(** An [IObserver] is known to the library by reference only. *)
Abbreviation IObserver := nat.

Record Library := mkLibrary {
  books : list Book;
  observers : list IObserver;
  localStorageKey : string;
}.

(** One call [observer.update(library)], with the collection the observer
    finds in the library at that moment. *)
Record UpdateCall := mkUpdate {
  receiver : IObserver;
  seen : list Book;
}.

Record World := mkWorld {
  localStorage : gmap string string;
  console : list string;
  updates : list UpdateCall;
}.

#[global] Instance UpdateCall_eq_dec : EqDecision UpdateCall.
Proof. solve_decision. Defined.

Definition setItem (k v : string) (w : World) : World :=
  {| localStorage := <[k := v]> (localStorage w);
     console := console w; updates := updates w |}.

Definition removeItem (k : string) (w : World) : World :=
  {| localStorage := delete k (localStorage w);
     console := console w; updates := updates w |}.

Definition console_error (msg : string) (w : World) : World :=
  {| localStorage := localStorage w;
     console := console w ++ [msg]; updates := updates w |}.

Definition call_update (this : Library) (w : World) (observer : IObserver) : World :=
  {| localStorage := localStorage w; console := console w;
     updates := updates w ++ [mkUpdate observer (books this)] |}.

Definition set_books (l : list Book) (this : Library) : Library :=
  {| books := l; observers := observers this;
     localStorageKey := localStorageKey this |}.

Definition set_observers (l : list IObserver) (this : Library) : Library :=
  {| books := books this; observers := l;
     localStorageKey := localStorageKey this |}.

(** [attach]: [this.observers.push(observer)]. *)
Definition attach (observer : IObserver) (this : Library) : Library :=
  set_observers (observers this ++ [observer]) this.

(** [detach]: [this.observers.filter((obs) => obs !== observer)]. *)
Definition detach (observer : IObserver) (this : Library) : Library :=
  set_observers (filter (λ obs, obs ≠ observer) (observers this)) this.

(** [notify]: [this.observers.forEach((observer) => observer.update(this))]. *)
Definition notify (this : Library) (w : World) : World :=
  foldl (call_update this) w (observers this).

(** [saveToLocalStorage]:
    [localStorage.setItem(this.localStorageKey, JSON.stringify(this.books))]. *)
Definition saveToLocalStorage (this : Library) (w : World) : World :=
  setItem (localStorageKey this) (JSON.stringify (books this)) w.

(** [addBook]: push, save, notify. *)
Definition addBook (book : Book) (this : Library) (w : World) : Library * World :=
  let this := set_books (books this ++ [book]) this in
  let w := saveToLocalStorage this w in
  let w := notify this w in
  (this, w).

(** [removeBook]: [this.books.filter((b) => b.id !== book.id)], save,
    notify. *)
Definition removeBook (book : Book) (this : Library) (w : World) : Library * World :=
  let this := set_books (filter (λ b, id b ≠ id book) (books this)) this in
  let w := saveToLocalStorage this w in
  let w := notify this w in
  (this, w).

Definition getBooks (this : Library) : list Book := books this.

(** *** Loading the snapshot *)

(** How the evaluation of an expression ends.  [Untyped] marks a run that
    builds a [Book] whose fields do not have the types the class declares
    (the cast [as IBook[]] is unchecked); such objects have no counterpart
    in the record [Book]. *)
Inductive completion (A : Type) :=
| Normal (a : A)
| Throw
| Untyped.
Arguments Normal {A} a.
Arguments Throw {A}.
Arguments Untyped {A}.

(** [bookData.k]: reading a property of [null] throws a [TypeError];
    arrays, strings, numbers and booleans have none of the four properties
    read here. *)
Definition Get (bookData : JSON.value) (k : string) : completion (option JSON.value) :=
  match bookData with
  | JSON.Null => Throw
  | JSON.Obj members => Normal (JSON.own_property (JSON.units k) members)
  | _ => Normal None
  end.

Fixpoint string_of_units (us : list N) : option string :=
  match us with
  | [] => Some EmptyString
  | u :: us' =>
      if (u <? 256)%N then String (ascii_of_N u) <$> string_of_units us' else None
  end.

(** A property value that is a [string]. *)
Definition as_string (v : option JSON.value) : option string :=
  match v with
  | Some (JSON.Str us) => string_of_units us
  | _ => None
  end.

(** A property value that is an integral [number]. *)
Definition as_integer (v : option JSON.value) : option Z :=
  match v with
  | Some (JSON.Num m e) =>
      if (0 <=? e)%Z then Some (m * 10 ^ e)%Z
      else if (m mod 10 ^ (- e) =? 0)%Z then Some (m / 10 ^ (- e))%Z else None
  | _ => None
  end.

(** [new Book(bookData.title, bookData.author, bookData.year, bookData.id)]. *)
Definition Book_of_data (bookData : JSON.value) : completion Book :=
  match Get bookData "title", Get bookData "author",
        Get bookData "year", Get bookData "id" with
  | Normal t, Normal a, Normal y, Normal i =>
      match as_string t, as_string a, as_integer y, as_string i with
      | Some t, Some a, Some y, Some i => Normal (Book_new t a y i)
      | _, _, _, _ => Untyped
      end
  | _, _, _, _ => Throw
  end.

(** [parsedBooks.map(...)]: the first element that throws ends the call,
    whatever was built before it. *)
Fixpoint map_Book_of_data (parsedBooks : list JSON.value) : completion (list Book) :=
  match parsedBooks with
  | [] => Normal []
  | bookData :: rest =>
      match Book_of_data bookData, map_Book_of_data rest with
      | Throw, _ | _, Throw => Throw
      | Normal b, Normal bs => Normal (b :: bs)
      | _, _ => Untyped
      end
  end.

Definition msg_invalid : string :=
  "Invalid data in local storage.  Expected an array.".

Definition msg_parse : string :=
  "Error parsing books from local storage:".

(** The [catch] block of [loadFromLocalStorage]. *)
Definition load_catch (this : Library) (w : World) : Library * World :=
  let w := console_error msg_parse w in
  let w := removeItem (localStorageKey this) w in
  (set_books [] this, w).

(** [loadFromLocalStorage].  The result is [None] exactly when the run is
    [Untyped]. *)
Definition loadFromLocalStorage (this : Library) (w : World) : option (Library * World) :=
  match localStorage w !! localStorageKey this with
  | None => Some (this, w)
  | Some storedBooks =>
      if Str.truthy storedBooks then
        match JSON.parse storedBooks with
        | Some (JSON.Arr parsedBooks) =>
            match map_Book_of_data parsedBooks with
            | Normal bs => Some (set_books bs this, w)
            | Throw => Some (load_catch this w)
            | Untyped => None
            end
        | Some _ => Some (this, console_error msg_invalid w)
        | None => Some (load_catch this w)
        end
      else Some (this, w)
  end.

(** The field initialisers of the class. *)
Definition Library_fields : Library :=
  {| books := []; observers := []; localStorageKey := "bookLibrary" |}.

(** [new Library()]. *)
Definition Library_new (w : World) : option (Library * World) :=
  loadFromLocalStorage Library_fields w.

(** ** Manage Books (Command)

    A command keeps a reference to its library; the library it is run
    against is that one. *)

Module AddBookCommand.
Record t := new { book : Book }.
Definition execute (c : t) (library : Library) (w : World) : Library * World :=
  addBook (book c) library w.
Definition undo (c : t) (library : Library) (w : World) : Library * World :=
  removeBook (book c) library w.
End AddBookCommand.

Module RemoveBookCommand.
Record t := new { book : Book }.
Definition execute (c : t) (library : Library) (w : World) : Library * World :=
  removeBook (book c) library w.
Definition undo (c : t) (library : Library) (w : World) : Library * World :=
  addBook (book c) library w.
End RemoveBookCommand.

(** ** Search for books (Strategy) *)

Module TitleSearchStrategy.
Definition search (books : list Book) (query : string) : list Book :=
  filter (λ book, Str.includes (Str.toLowerCase (title book))
                               (Str.toLowerCase query) = true) books.
End TitleSearchStrategy.

Module AuthorSearchStrategy.
Definition search (books : list Book) (query : string) : list Book :=
  filter (λ book, Str.includes (Str.toLowerCase (author book))
                               (Str.toLowerCase query) = true) books.
End AuthorSearchStrategy.

(** [parseInt(string)] with no radix; [None] is [NaN]. *)
Module ParseInt.

Fixpoint trimStart (s : string) : string :=
  match s with
  | String c r => if Char.is_StrWhiteSpaceChar c then trimStart r else s
  | EmptyString => EmptyString
  end.

Definition digit (R : Z) (c : ascii) : option Z :=
  match Char.hex_value c with
  | Some d => if (d <? R)%Z then Some d else None
  | None => None
  end.

(** The value of the longest run of radix-[R] digits at the head of [s];
    [acc] is the value read so far, [None] while no digit was read. *)
Fixpoint digits (R : Z) (s : string) (acc : option Z) : option Z :=
  match s with
  | String c r =>
      match digit R c with
      | Some d => digits R r (Some (R * default 0 acc + d)%Z)
      | None => acc
      end
  | EmptyString => acc
  end.

Definition unsigned (s : string) : option Z :=
  match s with
  | String "0" (String "x" r) | String "0" (String "X" r) => digits 16 r None
  | _ => digits 10 s None
  end.

Definition parseInt (s : string) : option Z :=
  match trimStart s with
  | String "-" r => Z.opp <$> unsigned r
  | String "+" r => unsigned r
  | r => unsigned r
  end.

End ParseInt.

Module YearSearchStrategy.
Definition search (books : list Book) (query : string) : list Book :=
  match ParseInt.parseInt query with
  | None => []
  | Some year' => filter (λ book, year book = year') books
  end.
End YearSearchStrategy.

(** [ISearchStrategy], its three implementations, and the manager that
    holds one. *)
Record ISearchStrategy := { search : list Book -> string -> list Book }.

Definition byTitle : ISearchStrategy := {| search := TitleSearchStrategy.search |}.
Definition byAuthor : ISearchStrategy := {| search := AuthorSearchStrategy.search |}.
Definition byYear : ISearchStrategy := {| search := YearSearchStrategy.search |}.

Module SearchManager.
Record t := new { strategy : ISearchStrategy }.
Definition setStrategy (s : ISearchStrategy) (m : t) : t := new s.
Definition search (m : t) (books : list Book) (query : string) : list Book :=
  search (strategy m) books query.
End SearchManager.

(** * Vocabulary of the statements

    The definitions below are not part of the program: they word what the
    properties say. *)

Local Open Scope list_scope.

(** ** Runs of methods *)

(** Running one method after another on the same library. *)
Definition and_then (f g : Library -> World -> Library * World)
  : Library -> World -> Library * World :=
  λ this w, let '(this', w') := f this w in g this' w'.

(** A mutation of the collection, and a run of several. *)
Inductive Mutation :=
| Add (b : Book)
| Remove (b : Book).

Definition mutate (m : Mutation) : Library -> World -> Library * World :=
  match m with
  | Add b => addBook b
  | Remove b => removeBook b
  end.

Fixpoint mutate_all (ms : list Mutation) (this : Library) (w : World) : Library * World :=
  match ms with
  | [] => (this, w)
  | m :: ms' => and_then (mutate m) (mutate_all ms') this w
  end.

(** ** Selecting entries of a list

    [Selects P l r]: [r] holds exactly the entries of [l] that satisfy
    [P], each as often as in [l] and in the order of [l]. *)

Inductive Selects {A : Type} (P : A -> Prop) : list A -> list A -> Prop :=
| Selects_nil : Selects P [] []
| Selects_keep x l r : P x -> Selects P l r -> Selects P (x :: l) (x :: r)
| Selects_drop x l r : ~ P x -> Selects P l r -> Selects P (x :: l) r.

(** *** Matching without regard to case, as the specification words it *)




(** *** The snapshot, read as data *)

(** The value [JSON.parse] builds from the text of a book. *)
Definition value_of_Book (b : Book) : JSON.value :=
  JSON.Obj
    ([(JSON.units "title", JSON.Str (JSON.units (title b)));
      (JSON.units "author", JSON.Str (JSON.units (author b)));
      (JSON.units "year", JSON.Num (year b) 0);
      (JSON.units "id", JSON.Str (JSON.units (id b)))]
     ++ match genre b with
        | Some g => [(JSON.units "genre", JSON.Str (JSON.units g))]
        | None => []
        end).

(** The book [loadFromLocalStorage] builds from the object of [b]. *)
Definition reloaded (b : Book) : Book :=
  Book_new (title b) (author b) (year b) (id b).


(** The decimal numeral of an integer, as [String(z)] writes it. *)
Definition decimal (z : Z) : string := string_of_list_ascii (JSON.NumberToString z).

(** *** Bookkeeping for the parser *)

(** The text does not go on with a digit. *)
Definition no_digit_ahead (s : JSON.text) : Prop :=
  match s with
  | [] => True
  | c :: _ => JSON.digit_of_char c = None
  end.

(** [leaves k x]: the parser result [x] is not [OutOfFuel], and when it is
    a value, at most [k] characters of the text are left. *)
Definition leaves {A : Type} (k : nat) (x : JSON.result (A * JSON.text)) : Prop :=
  match x with
  | JSON.Ok (_, r) => (length r ≤ k)%nat
  | JSON.SyntaxError => True
  | JSON.OutOfFuel => False
  end.

(** ** Sample data for the concrete runs *)

Module Sample.

Definition hobbit : Book := Book_new "The Hobbit" "J.R.R. Tolkien" 1937 "h1".
Definition fellowship : Book :=
  Book_new "The Fellowship of the Ring" "J.R.R. Tolkien" 1954 "f1".
Definition towers : Book := Book_new "The Two Towers" "J.R.R. Tolkien" 1955 "t1".

(** A second book that carries the id of [hobbit]. *)
Definition hobbit_again : Book := Book_new "The Hobbit, 2nd ed." "J.R.R. Tolkien" 1951 "h1".

(** A book built with a genre. *)
Definition silmarillion : Book :=
  BookBuilder.build
    (BookBuilder.setGenre "Fantasy"
       (BookBuilder.new "The Silmarillion" "J.R.R. Tolkien" 1977 "s1")).

Definition empty_world : World := mkWorld ∅ [] [].

Definition stored (s : string) : World := mkWorld {[ "bookLibrary" := s ]} [] [].

Definition shelf (l : list Book) (os : list IObserver) : Library :=
  mkLibrary l os "bookLibrary".

(** The text of an object with one member, [a], of value 1. *)
Definition object_text : string :=
  string_of_list_ascii
    ["{"; Char.dquote; "a"; Char.dquote; ":"; "1"; "}"]%char.

End Sample.


(** * The page: [DOMObserver] and the main application

    The part of the document the program touches is the record
    [App.page]: the content of the [bookList] element, the values of the
    five form controls, and the alerts shown so far.  The markup assigned
    to an [innerHTML] is kept as the string assigned, without reading it
    as HTML. *)

(** [Book.displayInfo]; a year is written by [String(year)]. *)
Definition displayInfo (b : Book) : string :=
  "<strong>" +:+ title b +:+ "</strong><br>Author: " +:+ author b
  +:+ "<br>Year: " +:+ decimal (year b).

Module DOM.

(** A [div.book-item]: the markup assigned to it, and the book its
    Delete button is bound to, when it was given a button. *)
Record BookItem := mkItem {
  markup : string;
  deleteButton : option Book;
}.

(** The content of the [bookList] element: the items appended to it, or
    the markup assigned to its [innerHTML]. *)
Inductive content :=
| Items (l : list BookItem)
| Markup (html : string).

End DOM.

Module DOMObserver.

(** What [update] leaves in the list element for a collection: one item
    per book, each with a Delete button bound to that book. *)
Definition render (books : list Book) : DOM.content :=
  DOM.Items (map (λ book, DOM.mkItem (displayInfo book) (Some book)) books).


(** The calls of [update] among [calls] that reach the observer [o], made
    in order on the list element. *)
Definition deliver (o : IObserver) (calls : list UpdateCall) (c : DOM.content)
  : DOM.content :=
  foldl (λ c u, if decide (receiver u = o) then render (seen u) else c) c calls.

End DOMObserver.

Module App.

(** The [value] of the form controls. *)
Record Inputs := mkInputs {
  title_value : string;
  author_value : string;
  year_value : string;
  searchQuery_value : string;
  searchStrategy_value : string;
}.

Record page := mkPage {
  library : Library;
  browser : World;
  domObserver : IObserver;
  bookList : DOM.content;
  searchManager : SearchManager.t;
  inputs : Inputs;
  alerts : list string;
}.

Definition alert (msg : string) (p : page) : page :=
  {| library := library p; browser := browser p; domObserver := domObserver p;
     bookList := bookList p; searchManager := searchManager p;
     inputs := inputs p; alerts := alerts p ++ [msg] |}.

(** A method of the library called from a handler: the calls of [update]
    it makes reach the list element. *)
Definition call (f : Library -> World -> Library * World) (p : page) : page :=
  let '(library', browser') := f (library p) (browser p) in
  {| library := library'; browser := browser'; domObserver := domObserver p;
     bookList := DOMObserver.deliver (domObserver p)
                   (drop (length (updates (browser p))) (updates browser'))
                   (bookList p);
     searchManager := searchManager p; inputs := inputs p; alerts := alerts p |}.


Definition msg_fill : string := "Please fill in all fields with valid data.".
Definition msg_strategy : string := "Invalid search strategy.".
Definition no_books_found : string := "<p>No books found.</p>".

Definition clear_fields (p : page) : page :=
  {| library := library p; browser := browser p; domObserver := domObserver p;
     bookList := bookList p; searchManager := searchManager p;
     inputs := {| title_value := ""; author_value := ""; year_value := "";
                  searchQuery_value := searchQuery_value (inputs p);
                  searchStrategy_value := searchStrategy_value (inputs p) |};
     alerts := alerts p |}.

(** The click handler of [addBookBtn]; [id] is what [generateId()]
    returns when it is reached. *)
Definition addBookBtn_click (id : string) (p : page) : page :=
  let title := title_value (inputs p) in
  let author := author_value (inputs p) in
  let year := ParseInt.parseInt (year_value (inputs p)) in
  match year with
  | Some y =>
      if negb (Str.truthy title) || negb (Str.truthy author) then alert msg_fill p
      else
        let newBook := BookBuilder.build (BookBuilder.new title author y id) in
        clear_fields (call (AddBookCommand.execute (AddBookCommand.new newBook)) p)
  | None =>
      (* [isNaN(year)] is the last operand of the test *)
      alert msg_fill p
  end.

(** The [switch] of the search handler. *)
Definition strategy_of (key : string) : option ISearchStrategy :=
  if decide (key = "title") then Some byTitle
  else if decide (key = "author") then Some byAuthor
  else if decide (key = "year") then Some byYear
  else None.

(** The items of a search result: they get no Delete button. *)
Definition show_results (results : list Book) : DOM.content :=
  match results with
  | [] => DOM.Markup no_books_found
  | _ :: _ => DOM.Items (map (λ book, DOM.mkItem (displayInfo book) None) results)
  end.

(** The click handler of [searchBtn]. *)
Definition searchBtn_click (p : page) : page :=
  let query := searchQuery_value (inputs p) in
  match strategy_of (searchStrategy_value (inputs p)) with
  | None => alert msg_strategy p
  | Some s =>
      let m := SearchManager.setStrategy s (searchManager p) in
      let searchResults := SearchManager.search m (getBooks (library p)) query in
      {| library := library p; browser := browser p; domObserver := domObserver p;
         bookList := show_results searchResults;
         searchManager := m; inputs := inputs p; alerts := alerts p |}
  end.

(** The click handler of the Delete button of the [i]-th item of the
    list; an item without a button has no handler. *)
Definition deleteButton_click (i : nat) (p : page) : page :=
  match bookList p with
  | DOM.Items l =>
      match l !! i with
      | Some (DOM.mkItem _ (Some book)) =>
          call (RemoveBookCommand.execute (RemoveBookCommand.new book)) p
      | _ => p
      end
  | DOM.Markup _ => p
  end.


Definition set_inputs (i : Inputs) (p : page) : page :=
  {| library := library p; browser := browser p; domObserver := domObserver p;
     bookList := bookList p; searchManager := searchManager p;
     inputs := i; alerts := alerts p |}.



End App.

(** ** Vocabulary for the page *)

(** The list shows the collection of the library, with its buttons. *)
Definition shows_collection (p : App.page) : Prop :=
  App.bookList p = DOMObserver.render (books (App.library p)).

(** No item of the list has a Delete button. *)
Definition buttonless (c : DOM.content) : Prop :=
  match c with
  | DOM.Items l => Forall (λ it, DOM.deleteButton it = None) l
  | DOM.Markup _ => True
  end.





(** ** Sample pages *)

Module SamplePage.

Definition typed (t a y : string) : App.Inputs :=
  App.mkInputs t a y "" "title".

(** The page loaded over a store that holds [hobbit] and [towers]. *)
Definition loaded : App.page :=
  App.mkPage (Sample.shelf [Sample.hobbit; Sample.towers] [0%nat])
    (Sample.stored (JSON.stringify [Sample.hobbit; Sample.towers]))
    0%nat
    (DOMObserver.render [Sample.hobbit; Sample.towers])
    (SearchManager.new byTitle)
    (typed "" "" "")
    [].

Definition with_inputs (i : App.Inputs) : App.page := App.set_inputs i loaded.

End SamplePage.

(** * Properties *)

Section Selects.
Context {A : Type} (P : A -> Prop) `{!∀ x, Decision (P x)}.

Lemma Selects_filter (l : list A) : Selects P l (filter P l).
Proof.
  induction l as [|x l IH]; [constructor|].
  destruct (decide (P x)) as [HP|HP].
  - rewrite filter_cons_True by done. by constructor.
  - rewrite filter_cons_False by done. by constructor.
Qed.

Lemma Selects_unique (l r r' : list A) :
  Selects P l r -> Selects P l r' -> r = r'.
Proof.
  intros Hs; revert r'.
  induction Hs as [|x l r HP _ IH|x l r HP _ IH]; intros r' H';
    inversion H'; subst; try done.
  - f_equal. by apply IH.
  - by apply IH.
Qed.

Lemma Selects_sublist (l r : list A) : Selects P l r -> r `sublist_of` l.
Proof. induction 1; by constructor. Qed.

Lemma Selects_elem_of (l r : list A) :
  Selects P l r -> ∀ x, x ∈ r ↔ x ∈ l ∧ P x.
Proof.
  induction 1 as [|y l r HP _ IH|y l r HP _ IH]; intros x.
  - rewrite !elem_of_nil. tauto.
  - rewrite !elem_of_cons, IH. intuition (subst; auto).
  - rewrite elem_of_cons, IH. intuition (subst; auto; tauto).
Qed.

Lemma Selects_all (l : list A) : Forall P l -> Selects P l l.
Proof. induction 1; by constructor. Qed.

End Selects.

(** ** The library's methods *)

Section Library.
Implicit Types (this : Library) (w : World) (b : Book) (o : IObserver).

Lemma notify_updates this w :
  updates (notify this w)
  = updates w ++ map (λ o, mkUpdate o (books this)) (observers this).
Proof.
  unfold notify. generalize (observers this) as os. intros os; revert w.
  induction os as [|o os IH]; intros w; simpl.
  - by rewrite app_nil_r.
  - rewrite IH. simpl. by rewrite <- app_assoc.
Qed.

Lemma notify_localStorage this w :
  localStorage (notify this w) = localStorage w.
Proof.
  unfold notify. generalize (observers this) as os. intros os; revert w.
  induction os as [|o os IH]; intros w; simpl; [done|by rewrite IH].
Qed.

Lemma notify_console this w : console (notify this w) = console w.
Proof.
  unfold notify. generalize (observers this) as os. intros os; revert w.
  induction os as [|o os IH]; intros w; simpl; [done|by rewrite IH].
Qed.

Lemma books_addBook b this w : books (addBook b this w).1 = books this ++ [b].
Proof. done. Qed.

Lemma books_removeBook b this w :
  books (removeBook b this w).1 = filter (λ x, id x ≠ id b) (books this).
Proof. done. Qed.

Lemma observers_addBook b this w : observers (addBook b this w).1 = observers this.
Proof. done. Qed.

Lemma observers_removeBook b this w :
  observers (removeBook b this w).1 = observers this.
Proof. done. Qed.

Lemma observers_mutate m this w : observers (mutate m this w).1 = observers this.
Proof. by destruct m. Qed.

Lemma updates_mutate m this w :
  updates (mutate m this w).2
  = updates w
    ++ map (λ o, mkUpdate o (books (mutate m this w).1)) (observers this).
Proof. destruct m; simpl; by rewrite notify_updates. Qed.

Lemma filter_id_all b (l : list Book) :
  Forall (λ x, id x ≠ id b) l -> filter (λ x, id x ≠ id b) l = l.
Proof.
  induction 1 as [|x l Hx _ IH]; [done|].
  rewrite filter_cons_True by done. by rewrite IH.
Qed.

Lemma filter_id_self b : filter (λ x, id x ≠ id b) [b] = [].
Proof. by rewrite filter_cons_False by (intros H; by apply H). Qed.

(** The calls made by a run of mutations on a library where [o] is not
    registered never reach [o]. *)
Lemma mutate_all_silent o ms : ∀ this w,
  o ∉ observers this ->
  ∃ calls, updates (mutate_all ms this w).2 = updates w ++ calls
           ∧ Forall (λ u, receiver u ≠ o) calls.
Proof.
  induction ms as [|m ms IH]; intros this w Ho; simpl.
  - exists []. by rewrite app_nil_r.
  - unfold and_then.
    pose proof (updates_mutate m this w) as Hu.
    pose proof (observers_mutate m this w) as Hobs.
    destruct (mutate m this w) as [this' w'] eqn:E. simpl in *.
    destruct (IH this' w') as (calls & Hc & Hall); [by rewrite Hobs|].
    eexists. split.
    + rewrite Hc, Hu, <- app_assoc. reflexivity.
    + apply Forall_app. split; [|done].
      apply Forall_forall. intros u Hin.
      apply list_elem_of_fmap in Hin as (o' & -> & Hin'). simpl.
      intros ->. done.
Qed.

End Library.

(** ** Removing by id *)

(** C5: [removeBook(b)] removes exactly the entries whose id equals
    [b.id], every one of them, and keeps the others in their order. *)
Theorem removeBook_selects_other_ids (this : Library) (w : World) (b : Book) :
  Selects (λ x, id x ≠ id b) (books this) (books (removeBook b this w).1)
  ∧ Forall (λ x, id x ≠ id b) (books (removeBook b this w).1)
  ∧ (∀ x, x ∈ books (removeBook b this w).1 ↔ x ∈ books this ∧ id x ≠ id b)
  ∧ books (removeBook b this w).1 `sublist_of` books this.
Proof.
  rewrite books_removeBook.
  pose proof (Selects_filter (λ x, id x ≠ id b) (books this)) as Hsel.
  split; [done|]. split; [|split].
  - apply Forall_forall. intros x Hx. by apply list_elem_of_filter in Hx as [? _].
  - by apply Selects_elem_of.
  - by apply (Selects_sublist _ _ _ Hsel).
Qed.

(** Two entries share an id: both go. *)
Example removeBook_duplicates :
  books (removeBook Sample.hobbit
           (Sample.shelf [Sample.hobbit; Sample.towers; Sample.hobbit_again] [])
           Sample.empty_world).1
  = [Sample.towers].
Proof. reflexivity. Qed.

(** ** Add and its undo *)

(** C2, as stated, fails when the collection already holds an entry with
    the id of the added book: the undo removes that entry as well. *)
Lemma add_undo_not_inverse_on_shared_id :
  books (and_then (AddBookCommand.execute (AddBookCommand.new Sample.hobbit_again))
                  (AddBookCommand.undo (AddBookCommand.new Sample.hobbit_again))
                  (Sample.shelf [Sample.hobbit] []) Sample.empty_world).1
  = []
  ∧ books (and_then (AddBookCommand.execute (AddBookCommand.new Sample.hobbit_again))
                    (AddBookCommand.undo (AddBookCommand.new Sample.hobbit_again))
                    (Sample.shelf [Sample.hobbit] []) Sample.empty_world).1
    ≠ books (Sample.shelf [Sample.hobbit] []).
Proof. split; [reflexivity|discriminate]. Qed.

(** C2, amended: when no entry of the collection carries the id of [b],
    [AddBookCommand(b)] executed and then undone leaves the collection as
    it was. *)
Theorem add_undo_restores_when_id_fresh (this : Library) (w : World) (b : Book) :
  Forall (λ x, id x ≠ id b) (books this) ->
  books (and_then (AddBookCommand.execute (AddBookCommand.new b))
                  (AddBookCommand.undo (AddBookCommand.new b)) this w).1
  = books this.
Proof.
  intros Hfresh. unfold and_then, AddBookCommand.execute, AddBookCommand.undo.
  simpl. rewrite filter_app, filter_id_all, filter_id_self by done.
  apply app_nil_r.
Qed.

Lemma add_undo_restores_when_id_fresh_witness :
  books (and_then (AddBookCommand.execute (AddBookCommand.new Sample.towers))
                  (AddBookCommand.undo (AddBookCommand.new Sample.towers))
                  (Sample.shelf [Sample.hobbit; Sample.fellowship] [7%nat])
                  Sample.empty_world).1
  = [Sample.hobbit; Sample.fellowship].
Proof.
  apply (add_undo_restores_when_id_fresh
           (Sample.shelf [Sample.hobbit; Sample.fellowship] [7%nat])
           Sample.empty_world Sample.towers).
  repeat constructor; simpl; discriminate.
Defined.

(** ** Remove, then add again *)

(** C3, as stated, fails for a book that is not the last entry: it comes
    back at the end of the collection. *)
Lemma remove_add_moves_to_end :
  Sample.hobbit ∈ books (Sample.shelf [Sample.hobbit; Sample.towers] [])
  ∧ books (and_then (removeBook Sample.hobbit) (addBook Sample.hobbit)
             (Sample.shelf [Sample.hobbit; Sample.towers] []) Sample.empty_world).1
    ≠ books (Sample.shelf [Sample.hobbit; Sample.towers] []).
Proof. split; [by left|discriminate]. Qed.

(** C3, amended: for a book [B] of the collection whose id no other entry
    carries, [removeBook(B)] followed by [addBook(B)] yields the same books
    with [B] moved to the end; the prior collection is restored when [B]
    was its last entry. *)
Theorem remove_add_moves_unique_id_to_end
    (this : Library) (w : World) (B : Book) (before after : list Book) :
  books this = before ++ B :: after ->
  Forall (λ x, id x ≠ id B) before ->
  Forall (λ x, id x ≠ id B) after ->
  books (and_then (removeBook B) (addBook B) this w).1 = before ++ after ++ [B]
  ∧ books (and_then (removeBook B) (addBook B) this w).1 ≡ₚ books this
  ∧ (after = [] -> books (and_then (removeBook B) (addBook B) this w).1 = books this).
Proof.
  intros Hb Hbefore Hafter.
  assert (books (and_then (removeBook B) (addBook B) this w).1
          = before ++ after ++ [B]) as Heq.
  { unfold and_then. simpl. rewrite Hb, filter_app, filter_cons_False.
    - rewrite !filter_id_all by done. by rewrite <- app_assoc.
    - intros H; by apply H. }
  split; [done|]. split.
  - rewrite Heq, Hb. apply Permutation_app_head.
    symmetry. apply Permutation_cons_append.
  - intros ->. rewrite Heq, Hb. by rewrite app_nil_l.
Qed.

Lemma remove_add_moves_unique_id_to_end_witness :
  books (and_then (removeBook Sample.towers) (addBook Sample.towers)
           (Sample.shelf [Sample.hobbit; Sample.fellowship; Sample.towers] [])
           Sample.empty_world).1
  = [Sample.hobbit; Sample.fellowship] ++ [] ++ [Sample.towers]
  ∧ books (and_then (removeBook Sample.towers) (addBook Sample.towers)
             (Sample.shelf [Sample.hobbit; Sample.fellowship; Sample.towers] [])
             Sample.empty_world).1
    ≡ₚ books (Sample.shelf [Sample.hobbit; Sample.fellowship; Sample.towers] [])
  ∧ (@nil Book = [] ->
     books (and_then (removeBook Sample.towers) (addBook Sample.towers)
              (Sample.shelf [Sample.hobbit; Sample.fellowship; Sample.towers] [])
              Sample.empty_world).1
     = books (Sample.shelf [Sample.hobbit; Sample.fellowship; Sample.towers] [])).
Proof.
  apply (remove_add_moves_unique_id_to_end
           (Sample.shelf [Sample.hobbit; Sample.fellowship; Sample.towers] [])
           Sample.empty_world Sample.towers
           [Sample.hobbit; Sample.fellowship] []).
  - reflexivity.
  - repeat constructor; simpl; discriminate.
  - constructor.
Defined.

(** ** Observers *)

(** Observers attached one after the other are registered in that order,
    each attachment adding one registration. *)
Lemma observers_attach_all (os : list IObserver) (this : Library) :
  observers (foldl (λ l o, attach o l) this os) = observers this ++ os.
Proof.
  revert this. induction os as [|o os IH]; intros this; simpl.
  - by rewrite app_nil_r.
  - rewrite IH. simpl. by rewrite <- app_assoc.
Qed.

Lemma not_elem_of_detach (o : IObserver) (this : Library) :
  o ∉ observers (detach o this).
Proof. simpl. intros H. apply list_elem_of_filter in H as [H _]. by apply H. Qed.

(** C8: one call of [addBook] or [removeBook] calls [update] once per
    registration, in the order of attachment, so an observer attached
    twice is called twice; once [o] is detached, no later mutation calls
    it. *)
Theorem mutation_notifies_each_registration
    (this : Library) (w : World) (b : Book) (o : IObserver) :
  updates (addBook b this w).2
  = updates w ++ map (λ o', mkUpdate o' (books (addBook b this w).1)) (observers this)
  ∧ updates (removeBook b this w).2
    = updates w ++ map (λ o', mkUpdate o' (books (removeBook b this w).1)) (observers this)
  ∧ (∀ os, observers (foldl (λ l o', attach o' l) this os) = observers this ++ os)
  ∧ (∀ ms, ∃ calls,
       updates (mutate_all ms (detach o this) w).2 = updates w ++ calls
       ∧ Forall (λ u, receiver u ≠ o) calls).
Proof.
  split; [|split; [|split]].
  - apply (updates_mutate (Add b)).
  - apply (updates_mutate (Remove b)).
  - intros os. apply observers_attach_all.
  - intros ms. apply mutate_all_silent, not_elem_of_detach.
Qed.

(** An observer attached twice hears of one [addBook] twice. *)
Example attached_twice_called_twice :
  map receiver
    (updates (addBook Sample.hobbit
                (attach 2%nat (attach 1%nat (attach 2%nat (Sample.shelf [] []))))
                Sample.empty_world).2)
  = [2%nat; 1%nat; 2%nat].
Proof. reflexivity. Qed.

(** C9: [detach(o)] removes every registration of [o] and no other.  When
    [o] was attached twice, one [detach(o)] removes both registrations,
    and the next mutation calls the remaining observers and never [o]. *)
Theorem detach_removes_every_registration
    (this : Library) (w : World) (m : Mutation) (o : IObserver) :
  Selects (λ obs, obs ≠ o) (observers this) (observers (detach o this))
  ∧ (o ∉ observers (detach o this))
  ∧ observers (detach o (attach o (attach o this))) = observers (detach o this)
  ∧ ∃ calls,
      updates (mutate m (detach o (attach o (attach o this))) w).2 = updates w ++ calls
      ∧ map receiver calls = observers (detach o this)
      ∧ Forall (λ u, receiver u ≠ o) calls.
Proof.
  assert (observers (detach o (attach o (attach o this))) = observers (detach o this))
    as Htwice.
  { simpl. rewrite !filter_app, !filter_cons_False, filter_nil, !app_nil_r; auto. }
  split; [apply Selects_filter|]. split; [apply not_elem_of_detach|].
  split; [done|].
  eexists. split; [apply updates_mutate|]. rewrite Htwice. split.
  - rewrite map_map. simpl. apply map_id.
  - apply Forall_forall. intros u Hu.
    apply list_elem_of_fmap in Hu as (o' & -> & Ho'). simpl.
    intros ->. by apply (not_elem_of_detach o this).
Qed.

Example detach_after_two_attachments :
  updates (addBook Sample.hobbit
             (detach 2%nat (attach 2%nat (attach 1%nat (attach 2%nat (Sample.shelf [] [])))))
             Sample.empty_world).2
  = [mkUpdate 1%nat [Sample.hobbit]].
Proof. reflexivity. Qed.

(** ** Removing a book that is not there *)

(** C10: when no entry carries the id of [b], [removeBook(b)] leaves the
    collection as it is, writes the snapshot all the same, and calls every
    registered observer. *)
Theorem removeBook_absent_id_still_saves_and_notifies
    (this : Library) (w : World) (b : Book) :
  Forall (λ x, id x ≠ id b) (books this) ->
  books (removeBook b this w).1 = books this
  ∧ localStorage (removeBook b this w).2
    = <[localStorageKey this := JSON.stringify (books this)]> (localStorage w)
  ∧ localStorage (removeBook b this w).2 !! localStorageKey this
    = Some (JSON.stringify (books this))
  ∧ updates (removeBook b this w).2
    = updates w ++ map (λ o, mkUpdate o (books this)) (observers this).
Proof.
  intros Habsent.
  assert (books (removeBook b this w).1 = books this) as Hbooks.
  { rewrite books_removeBook. by apply filter_id_all. }
  split; [done|].
  assert (localStorage (removeBook b this w).2
          = <[localStorageKey this := JSON.stringify (books this)]> (localStorage w))
    as Hstore.
  { simpl in *. rewrite notify_localStorage. simpl. by rewrite Hbooks. }
  split; [done|]. split.
  - rewrite Hstore. apply lookup_insert_eq.
  - pose proof (updates_mutate (Remove b) this w) as Hu.
    simpl in Hu, Hbooks |- *. rewrite Hu. by rewrite Hbooks.
Qed.

Lemma removeBook_absent_id_still_saves_and_notifies_witness :
  books (removeBook Sample.towers (Sample.shelf [Sample.hobbit] [4%nat; 5%nat])
           (Sample.stored "stale")).1
  = books (Sample.shelf [Sample.hobbit] [4%nat; 5%nat])
  ∧ localStorage (removeBook Sample.towers (Sample.shelf [Sample.hobbit] [4%nat; 5%nat])
                    (Sample.stored "stale")).2
    = <[localStorageKey (Sample.shelf [Sample.hobbit] [4%nat; 5%nat])
        := JSON.stringify (books (Sample.shelf [Sample.hobbit] [4%nat; 5%nat]))]>
        (localStorage (Sample.stored "stale"))
  ∧ localStorage (removeBook Sample.towers (Sample.shelf [Sample.hobbit] [4%nat; 5%nat])
                    (Sample.stored "stale")).2
    !! localStorageKey (Sample.shelf [Sample.hobbit] [4%nat; 5%nat])
    = Some (JSON.stringify (books (Sample.shelf [Sample.hobbit] [4%nat; 5%nat])))
  ∧ updates (removeBook Sample.towers (Sample.shelf [Sample.hobbit] [4%nat; 5%nat])
               (Sample.stored "stale")).2
    = updates (Sample.stored "stale")
      ++ map (λ o, mkUpdate o (books (Sample.shelf [Sample.hobbit] [4%nat; 5%nat])))
             (observers (Sample.shelf [Sample.hobbit] [4%nat; 5%nat])).
Proof.
  apply (removeBook_absent_id_still_saves_and_notifies
           (Sample.shelf [Sample.hobbit] [4%nat; 5%nat])
           (Sample.stored "stale") Sample.towers).
  repeat constructor; simpl; discriminate.
Defined.

(** ** Search strategies *)


Section CaseInsensitive.












End CaseInsensitive.


Example author_search_tolkien :
  AuthorSearchStrategy.search
    [Sample.hobbit; Book_new "Dune" "Frank Herbert" 1965 "d1"] "tolkien"
  = [Sample.hobbit].
Proof. reflexivity. Qed.

(** ** The JSON text of a collection parses back *)

Section JSONRoundTrip.
Import JSON.
Local Open Scope char_scope.

Lemma parse_value_S n s :
  parse_value (S n) s
  = match skip_ws s with
    | [] => SyntaxError
    | c :: r =>
        if decide (c = "[") then
          match expect "]" r with
          | Some r' => Ok (Arr [], r')
          | None => parse_elements n r []
          end
        else if decide (c = "{") then
          match expect "}" r with
          | Some r' => Ok (Obj [], r')
          | None => parse_members n r []
          end
        else if decide (c = Char.dquote) then
          bind (parse_chars r) (fun '(us, r') => Ok (Str us, r'))
        else if bool_decide (c = "-") || Char.is_digit c then
          parse_number (c :: r)
        else parse_literal (c :: r)
    end.
Proof. reflexivity. Qed.

Lemma parse_elements_S n s acc :
  parse_elements (S n) s acc
  = bind (parse_value n s) (fun '(v, r) =>
      match expect "," r with
      | Some r' => parse_elements n r' (v :: acc)
      | None =>
          match expect "]" r with
          | Some r' => Ok (Arr (rev (v :: acc)), r')
          | None => SyntaxError
          end
      end).
Proof. reflexivity. Qed.

Lemma parse_members_S n s acc :
  parse_members (S n) s acc
  = match expect Char.dquote s with
    | Some r =>
        bind (parse_chars r) (fun '(k, r1) =>
        match expect ":" r1 with
        | Some r2 =>
            bind (parse_value n r2) (fun '(v, r3) =>
            match expect "," r3 with
            | Some r4 => parse_members n r4 ((k, v) :: acc)
            | None =>
                match expect "}" r3 with
                | Some r4 => Ok (Obj (rev ((k, v) :: acc)), r4)
                | None => SyntaxError
                end
            end)
        | None => SyntaxError
        end)
    | None => SyntaxError
    end.
Proof. reflexivity. Qed.

Lemma skip_ws_cons (c : ascii) (r : text) :
  is_ws c = false -> skip_ws (c :: r) = c :: r.
Proof. simpl. by intros ->. Qed.

Lemma expect_hit (c : ascii) (r : text) :
  is_ws c = false -> expect c (c :: r) = Some r.
Proof.
  intros Hc. unfold expect. rewrite skip_ws_cons by done.
  by destruct (decide (c = c)).
Qed.

Lemma expect_miss (c c' : ascii) (r : text) :
  is_ws c' = false -> c' ≠ c -> expect c (c' :: r) = None.
Proof.
  intros Hc Hne. unfold expect. rewrite skip_ws_cons by done.
  by destruct (decide (c' = c)).
Qed.

Ltac skip :=
  cbv beta iota;
  first [ rewrite expect_hit by reflexivity
        | rewrite expect_miss by (reflexivity || discriminate)
        | rewrite skip_ws_cons by reflexivity ];
  cbv beta iota.

(** Strings *)

Lemma parse_chars_quote_char (c : ascii) (s : text) :
  parse_chars (quote_char c ++ s) = cons_unit (Char.code c) (parse_chars s).
Proof. destruct c as [[] [] [] [] [] [] [] []]; reflexivity. Qed.

Lemma parse_chars_quote_chars (s : string) (rest : text) :
  parse_chars (quote_chars s ++ Char.dquote :: rest) = Ok (units s, rest).
Proof.
  induction s as [|c s IH]; [reflexivity|].
  cbn [quote_chars]. rewrite <- app_assoc, parse_chars_quote_char, IH.
  reflexivity.
Qed.

Lemma QuoteJSONString_app (s : string) (rest : text) :
  QuoteJSONString s ++ rest = Char.dquote :: quote_chars s ++ Char.dquote :: rest.
Proof. unfold QuoteJSONString. simpl. by rewrite <- app_assoc. Qed.

Lemma parse_value_string n (s : string) (rest : text) :
  parse_value (S n) (QuoteJSONString s ++ rest) = Ok (Str (units s), rest).
Proof.
  rewrite QuoteJSONString_app, parse_value_S. cbn [skip_ws is_ws].
  simpl. by rewrite parse_chars_quote_chars.
Qed.

(** Numbers *)

Lemma scan_uint_no_digit (s : text) : no_digit_ahead s -> scan_uint s = (Nil, s).
Proof. destruct s as [|c r]; simpl; [done|]. by intros ->. Qed.

Lemma scan_uint_text (d : uint) (rest : text) :
  no_digit_ahead rest -> scan_uint (uint_text d ++ rest) = (d, rest).
Proof.
  intros Hrest. induction d; simpl; try rewrite IHd; try done.
  by apply scan_uint_no_digit.
Qed.

Lemma unorm_D0 (d d' : uint) : unorm d = D0 d' -> d' = Nil.
Proof. induction d; simpl; intros H; try discriminate H; try by inversion H. auto. Qed.

Lemma to_uint_unorm (p : positive) : unorm (Pos.to_uint p) = Pos.to_uint p.
Proof.
  rewrite <- DecimalPos.Unsigned.to_of, DecimalPos.Unsigned.of_to. reflexivity.
Qed.

(** The decimal digits of a positive number do not start with a zero. *)
Lemma to_uint_head (p : positive) :
  match Pos.to_uint p with
  | Nil | D0 _ => False
  | _ => True
  end.
Proof.
  pose proof (to_uint_unorm p) as Hn.
  pose proof (DecimalPos.Unsigned.to_uint_nonzero p) as Hz.
  destruct (Pos.to_uint p) as [|d| | | | | | | | |] eqn:E; try done.
  simpl in Hn. apply unorm_D0 in Hn as ->. by apply Hz.
Qed.

Lemma of_uint_to_uint (p : positive) : Z.of_uint (Pos.to_uint p) = Zpos p.
Proof. unfold Z.of_uint. by rewrite DecimalPos.Unsigned.of_to. Qed.

Lemma app_Nil (d : uint) : Decimal.app d Nil = d.
Proof.
  unfold Decimal.app. rewrite <- (DecimalFacts.rev_rev d) at 2.
  unfold Decimal.rev at 2. generalize (Decimal.rev d) as r. intros r.
  reflexivity.
Qed.

(** What follows a number in the text of a book: a comma. *)
Lemma parse_unsigned_pos (neg : bool) (p : positive) (rest : text) :
  parse_unsigned neg (uint_text (Pos.to_uint p) ++ "," :: rest)
  = Ok (Num (if neg then Zneg p else Zpos p) 0, "," :: rest).
Proof.
  unfold parse_unsigned. rewrite scan_uint_text by done.
  pose proof (to_uint_head p) as Hh. pose proof (of_uint_to_uint p) as Hv.
  destruct (Pos.to_uint p) as [|d| | | | | | | | |] eqn:E; try done;
    cbn [scan_frac scan_exp bind]; rewrite app_Nil, Hv; by destruct neg.
Qed.

Lemma parse_number_NumberToString (z : Z) (rest : text) :
  parse_number (NumberToString z ++ "," :: rest) = Ok (Num z 0, "," :: rest).
Proof.
  destruct z as [|p|p]; [reflexivity| |].
  - pose proof (parse_unsigned_pos false p rest) as H.
    pose proof (to_uint_head p) as Hh.
    unfold NumberToString, parse_number.
    destruct (Pos.to_uint p); try done.
  - apply (parse_unsigned_pos true p rest).
Qed.

Lemma parse_value_number n (c : ascii) (r : text) :
  c = "-" ∨ digit_of_char c ≠ None ->
  parse_value (S n) (c :: r) = parse_number (c :: r).
Proof.
  intros H. rewrite parse_value_S.
  destruct c as [[] [] [] [] [] [] [] []]; try reflexivity;
    destruct H as [H|H]; try discriminate H; by destruct H.
Qed.

Lemma NumberToString_head (z : Z) :
  ∃ c r, NumberToString z = c :: r ∧ (c = "-" ∨ digit_of_char c ≠ None).
Proof.
  destruct z as [|p|p].
  - exists "0", []. split; [done|by right].
  - pose proof (to_uint_head p) as Hh. unfold NumberToString.
    destruct (Pos.to_uint p) as [|d|d|d|d|d|d|d|d|d|d]; try done;
      eexists _, _; (split; [reflexivity|by right]).
  - eexists _, _. split; [reflexivity|by left].
Qed.

Lemma parse_value_NumberToString n (z : Z) (rest : text) :
  parse_value (S n) (NumberToString z ++ "," :: rest) = Ok (Num z 0, "," :: rest).
Proof.
  destruct (NumberToString_head z) as (c & r & E & Hc).
  rewrite <- parse_number_NumberToString. rewrite E. simpl.
  by apply parse_value_number.
Qed.

(** Objects *)

Lemma parse_members_comma n (k : string) (vt : text) (v : value) (rest : text) acc :
  parse_value n (vt ++ "," :: rest) = Ok (v, "," :: rest) ->
  parse_members (S n) (member k vt ++ "," :: rest) acc
  = parse_members n rest ((units k, v) :: acc).
Proof.
  intros Hv. unfold member.
  rewrite <- app_assoc, QuoteJSONString_app, <- app_comm_cons.
  rewrite parse_members_S. skip.
  rewrite parse_chars_quote_chars. cbn [bind]. skip.
  rewrite Hv. cbn [bind]. skip. reflexivity.
Qed.

Lemma parse_members_close n (k : string) (vt : text) (v : value) (rest : text) acc :
  parse_value n (vt ++ "}" :: rest) = Ok (v, "}" :: rest) ->
  parse_members (S n) (member k vt ++ "}" :: rest) acc
  = Ok (Obj (rev ((units k, v) :: acc)), rest).
Proof.
  intros Hv. unfold member.
  rewrite <- app_assoc, QuoteJSONString_app, <- app_comm_cons.
  rewrite parse_members_S. skip.
  rewrite parse_chars_quote_chars. cbn [bind]. skip.
  rewrite Hv. cbn [bind]. skip. reflexivity.
Qed.

Lemma parse_value_open n (k : string) (vt rest : text) :
  parse_value (S n) ("{" :: member k vt ++ rest)
  = parse_members n (member k vt ++ rest) [].
Proof.
  unfold member. rewrite <- app_assoc, QuoteJSONString_app.
  rewrite parse_value_S. skip. by skip.
Qed.

Lemma parse_value_Book n (b : Book) (rest : text) :
  parse_value (7 + n) (stringify_Book b ++ rest) = Ok (value_of_Book b, rest).
Proof.
  unfold stringify_Book. cbn [Nat.add].
  repeat (rewrite <- app_assoc || rewrite <- app_comm_cons).
  rewrite parse_value_open.
  rewrite parse_members_comma with (v := Str (units (title b)))
    by apply parse_value_string.
  rewrite parse_members_comma with (v := Str (units (author b)))
    by apply parse_value_string.
  rewrite parse_members_comma with (v := Num (year b) 0)
    by apply parse_value_NumberToString.
  unfold value_of_Book. destruct (genre b) as [g|].
  - repeat (rewrite <- app_assoc || rewrite <- app_comm_cons).
    rewrite parse_members_comma with (v := Str (units (id b)))
      by apply parse_value_string.
    cbn [app].
    rewrite parse_members_close with (v := Str (units g))
      by apply parse_value_string.
    reflexivity.
  - cbn [app].
    rewrite parse_members_close with (v := Str (units (id b)))
      by apply parse_value_string.
    reflexivity.
Qed.

(** Arrays *)

Lemma stringify_Book_head (b : Book) (rest : text) :
  ∃ t, stringify_Book b ++ rest = "{" :: t.
Proof. unfold stringify_Book. rewrite <- app_comm_cons. eauto. Qed.

Lemma parse_elements_Books (l : list Book) : ∀ n (b : Book) (rest : text) acc,
  parse_elements (length l + 8 + n) (stringify_elements (b :: l) ++ "]" :: rest) acc
  = Ok (Arr (rev acc ++ map value_of_Book (b :: l)), rest).
Proof.
  induction l as [|b' l IH]; intros n b rest acc.
  - cbn [length Nat.add stringify_elements]. rewrite parse_elements_S.
    rewrite (parse_value_Book n). cbn [bind]. skip.
    simpl. reflexivity.
  - cbn [length Nat.add]. rewrite parse_elements_S.
    change (stringify_elements (b :: b' :: l))
      with (stringify_Book b ++ "," :: stringify_elements (b' :: l)).
    rewrite <- app_assoc, <- app_comm_cons.
    replace (length l + 8 + n)%nat with (7 + (length l + 1 + n))%nat by lia.
    rewrite parse_value_Book. cbn [bind]. skip.
    replace (7 + (length l + 1 + n))%nat with (length l + 8 + n)%nat by lia.
    rewrite IH. simpl. by rewrite <- app_assoc.
Qed.

Lemma parse_value_Books n (l : list Book) (rest : text) :
  parse_value (length l + 9 + n) (stringify_text l ++ rest)
  = Ok (Arr (map value_of_Book l), rest).
Proof.
  replace (length l + 9 + n)%nat with (S (length l + 8 + n)) by lia.
  unfold stringify_text. rewrite parse_value_S. rewrite <- app_comm_cons. skip.
  destruct l as [|b l].
  - simpl. reflexivity.
  - rewrite <- app_assoc. cbn [app].
    destruct (stringify_Book_head b
                (match l with [] => [] | _ :: _ => "," :: stringify_elements l end
                 ++ "]" :: rest)) as [t Ht].
    assert (stringify_elements (b :: l) ++ "]" :: rest = "{" :: t) as Ht'.
    { rewrite <- Ht. destruct l; [done|]. cbn [stringify_elements].
      by rewrite <- app_assoc. }
    rewrite Ht'. skip. rewrite <- Ht'.
    replace (length (b :: l) + 8 + n)%nat with (length l + 8 + S n)%nat
      by (simpl; lia).
    by rewrite parse_elements_Books.
Qed.

Lemma length_stringify_Book (b : Book) : (5 ≤ length (stringify_Book b))%nat.
Proof. unfold stringify_Book. simpl. lia. Qed.

Lemma length_stringify_elements (l : list Book) :
  (5 * length l ≤ length (stringify_elements l))%nat.
Proof.
  induction l as [|b l IH]; [done|].
  pose proof (length_stringify_Book b) as Hb.
  destruct l as [|b' l]; [simpl in *; lia|].
  change (stringify_elements (b :: b' :: l))
    with (stringify_Book b ++ "," :: stringify_elements (b' :: l)).
  rewrite length_app. simpl in *. lia.
Qed.

Lemma parse_text_stringify_text (l : list Book) :
  parse_text (stringify_text l) = Ok (Arr (map value_of_Book l)).
Proof.
  unfold parse_text. destruct l as [|b l]; [reflexivity|].
  pose proof (length_stringify_elements (b :: l)) as Hlen.
  pose proof (parse_value_Books
                (fuel_for (stringify_text (b :: l)) - (length (b :: l) + 9))
                (b :: l) []) as Hp.
  rewrite app_nil_r in Hp.
  replace (length (b :: l) + 9
           + (fuel_for (stringify_text (b :: l)) - (length (b :: l) + 9)))%nat
    with (fuel_for (stringify_text (b :: l))) in Hp.
  - by rewrite Hp.
  - unfold fuel_for, stringify_text. rewrite length_cons, length_app.
    simpl length in *. lia.
Qed.

(** [JSON.parse(JSON.stringify(books))] succeeds, with one object per
    book, in order. *)
Lemma parse_stringify (l : list Book) :
  parse (stringify l) = Some (Arr (map value_of_Book l)).
Proof.
  unfold parse, stringify.
  by rewrite list_ascii_of_string_of_list_ascii, parse_text_stringify_text.
Qed.

Lemma truthy_stringify (l : list Book) : Str.truthy (stringify l) = true.
Proof. reflexivity. Qed.

(** Reading the books back *)

Lemma string_of_units_units (s : string) : string_of_units (units s) = Some s.
Proof.
  induction s as [|c s IH]; [reflexivity|].
  unfold units in *. cbn [list_ascii_of_string map string_of_units].
  unfold Char.code at 1 2.
  pose proof (N_ascii_bounded c) as Hc.
  destruct (N_of_ascii c <? 256)%N eqn:E; [|apply N.ltb_ge in E; lia].
  by rewrite IH, ascii_N_embedding.
Qed.

Lemma Book_of_data_value_of_Book (b : Book) :
  Book_of_data (value_of_Book b) = Normal (reloaded b).
Proof.
  unfold Book_of_data, value_of_Book, reloaded.
  destruct (genre b) as [g|]; cbn [app Get];
    change (own_property (units "title"%string) _) with (Some (Str (units (title b))));
    change (own_property (units "author"%string) _) with (Some (Str (units (author b))));
    change (own_property (units "year"%string) _) with (Some (Num (year b) 0));
    change (own_property (units "id"%string) _) with (Some (Str (units (id b))));
    cbn [as_string as_integer]; rewrite !string_of_units_units;
    cbn; by rewrite Z.mul_1_r.
Qed.

End JSONRoundTrip.

(** ** The year strategy *)

(** *** [parseInt] on decimal numerals *)

Section ParseIntDecimal.
Import ParseInt.







End ParseIntDecimal.


Example year_search_1954 :
  YearSearchStrategy.search [Sample.fellowship; Sample.towers] "1954"
  = [Sample.fellowship]
  ∧ YearSearchStrategy.search [Sample.fellowship; Sample.towers] "abc" = [].
Proof. split; reflexivity. Qed.

(** [parseInt] stops at the first character that is no digit, and reads a
    [0x] prefix as hexadecimal. *)
Example parseInt_prefixes :
  ParseInt.parseInt "  1954abc" = Some 1954
  ∧ ParseInt.parseInt "0x7A2" = Some 1954
  ∧ ParseInt.parseInt "-12.5" = Some (-12)
  ∧ ParseInt.parseInt "" = None
  ∧ ParseInt.parseInt "0x" = None.
Proof. repeat split; reflexivity. Qed.

(** ** [JSON.parse] never runs out of fuel *)

Section JSONTotal.
Import JSON.
Local Open Scope char_scope.

Lemma leaves_mono {A} (k k' : nat) (x : result (A * text)) :
  (k ≤ k')%nat -> leaves k x -> leaves k' x.
Proof. destruct x as [[a r]| |]; simpl; [lia|done..]. Qed.

Lemma leaves_bind {A B} (k k' : nat) (x : result (A * text))
    (f : A * text -> result (B * text)) :
  leaves k x ->
  (∀ a r, (length r ≤ k)%nat -> leaves k' (f (a, r))) ->
  leaves k' (bind x f).
Proof. destruct x as [[a r]| |]; simpl; [auto|done..]. Qed.

Lemma length_skip_ws (s : text) : (length (skip_ws s) ≤ length s)%nat.
Proof.
  induction s as [|c s IH]; simpl; [lia|]. destruct (is_ws c); simpl; lia.
Qed.

Lemma length_expect (c : ascii) (s r : text) :
  expect c s = Some r -> (length r < length s)%nat.
Proof.
  unfold expect. pose proof (length_skip_ws s) as Hs.
  destruct (skip_ws s) as [|c' r']; [done|].
  destruct (decide (c' = c)); [|done]. intros [= <-]. simpl in Hs. lia.
Qed.

Lemma length_scan_uint (s : text) :
  (length (scan_uint s).2 ≤ length s)%nat
  ∧ ((scan_uint s).1 ≠ Nil -> (length (scan_uint s).2 < length s)%nat).
Proof.
  induction s as [|c s [IH1 IH2]]; simpl; [split; [lia|done]|].
  destruct (digit_of_char c) as [d|]; [|split; [simpl; lia|done]].
  destruct (scan_uint s) as [u r]. simpl in *. split; [lia|]. intros _. lia.
Qed.

Lemma leaves_cons_unit (k : nat) (u : N) (x : result (list N * text)) :
  leaves k x -> leaves k (cons_unit u x).
Proof. by destruct x as [[us r]| |]. Qed.

Lemma leaves_parse_chars (s : text) : leaves (length s - 1) (parse_chars s).
Proof.
  assert (∀ k (s : text), (length s ≤ k)%nat -> leaves (length s - 1) (parse_chars s))
    as H; [|by apply (H (length s))].
  clear s. induction k as [|k IH]; intros [|c s] Hk; try done; simpl in Hk; [lia|].
  cbn [parse_chars].
  assert (∀ t : text, (length t ≤ length s)%nat ->
                      leaves (length (c :: s) - 1) (parse_chars t)) as Hrec.
  { intros t Ht. eapply leaves_mono; [|apply IH]; simpl; lia. }
  destruct (decide (c = Char.dquote)); [simpl; lia|].
  destruct (decide (c = "\")).
  - destruct s as [|esc s1]; [done|].
    destruct (simple_escape esc).
    + apply leaves_cons_unit, Hrec. simpl; lia.
    + destruct (decide (esc = "u")); [|done].
      destruct s1 as [|a [|b [|c' [|d s2]]]]; try done.
      destruct (hex4 a b c' d); [|done].
      apply leaves_cons_unit, Hrec. simpl; lia.
  - destruct (Char.code c <? 32)%N; [done|].
    by apply leaves_cons_unit, Hrec.
Qed.

Lemma leaves_scan_frac (s : text) : leaves (length s) (scan_frac s).
Proof.
  unfold scan_frac. destruct s as [|c t]; [simpl; lia|].
  pose proof (length_scan_uint t) as [Ht _].
  destruct (scan_uint t) as [f r]. simpl in Ht.
  destruct c as [[] [] [] [] [] [] [] []]; try (simpl; lia).
  destruct f; simpl; lia.
Qed.

Lemma leaves_scan_exp_digits (neg : bool) (s : text) :
  leaves (length s) (scan_exp_digits neg s).
Proof.
  unfold scan_exp_digits. pose proof (length_scan_uint s) as [Hs _].
  destruct (scan_uint s) as [x r]. simpl in Hs. destruct x; simpl; lia.
Qed.

Lemma leaves_scan_exp (s : text) : leaves (length s) (scan_exp s).
Proof.
  unfold scan_exp. destruct s as [|c t]; [simpl; lia|].
  destruct (decide _); [|simpl; lia].
  assert (∀ b (t' : text), (length t' ≤ length t)%nat ->
                           leaves (length (c :: t)) (scan_exp_digits b t')) as H.
  { intros b t' Ht'. eapply leaves_mono; [|apply leaves_scan_exp_digits].
    simpl; lia. }
  destruct t as [|c' t']; [by apply H|].
  destruct c' as [[] [] [] [] [] [] [] []]; apply H; simpl; lia.
Qed.

Lemma leaves_parse_unsigned (neg : bool) (s : text) :
  leaves (length s - 1) (parse_unsigned neg s).
Proof.
  unfold parse_unsigned.
  pose proof (length_scan_uint s) as [_ Hlt].
  destruct (scan_uint s) as [i r1]. simpl in Hlt.
  assert (∀ i', i ≠ Nil ->
            leaves (length s - 1)
              (bind (scan_frac r1) (λ '(f, r2),
                 bind (scan_exp r2) (λ '(x, r3),
                   Ok (Num (if neg then - Z.of_uint (Decimal.app i' f)
                            else Z.of_uint (Decimal.app i' f))
                           (x - Z.of_nat (nb_digits f)), r3))))) as Hrest.
  { intros i' Hi. specialize (Hlt Hi).
    eapply leaves_bind; [apply leaves_scan_frac|]. intros f r2 Hr2.
    eapply leaves_bind; [apply leaves_scan_exp|]. intros x r3 Hr3.
    simpl. lia. }
  destruct i as [|i|i|i|i|i|i|i|i|i|i]; [done| |by apply Hrest..].
  destruct i; try done. by apply Hrest.
Qed.

Lemma leaves_parse_number (s : text) : leaves (length s - 1) (parse_number s).
Proof.
  unfold parse_number. destruct s as [|c t]; [apply (leaves_parse_unsigned false [])|].
  assert (leaves (length (c :: t) - 1) (parse_unsigned true t)) as Hneg.
  { eapply leaves_mono; [|apply leaves_parse_unsigned]. simpl; lia. }
  pose proof (leaves_parse_unsigned false (c :: t)) as Hpos.
  destruct c as [[] [] [] [] [] [] [] []]; done.
Qed.

Lemma leaves_parse_literal (s : text) : leaves (length s - 1) (parse_literal s).
Proof.
  unfold parse_literal.
  repeat (lazymatch goal with
          | |- leaves _ (match ?x with [] => _ | _ :: _ => _ end) =>
              destruct x as [|[[] [] [] [] [] [] [] []] ?]; try done
          end).
  all: simpl; lia.
Qed.

Lemma leaves_parse (n : nat) :
  (∀ s, (2 * length s + 1 ≤ n)%nat -> leaves (length s - 1) (parse_value n s))
  ∧ (∀ s acc, (2 * length s + 2 ≤ n)%nat ->
              leaves (length s - 1) (parse_elements n s acc))
  ∧ (∀ s acc, (2 * length s + 2 ≤ n)%nat ->
              leaves (length s - 1) (parse_members n s acc)).
Proof.
  induction n as [|n (IHv & IHe & IHm)]; [repeat split; intros; lia|].
  split; [|split].
  - intros s Hn. rewrite parse_value_S.
    pose proof (length_skip_ws s) as Hs.
    destruct (skip_ws s) as [|c r]; [done|]. simpl in Hs.
    destruct (decide (c = "[")).
    { destruct (expect "]" r) as [r'|] eqn:E.
      - apply length_expect in E. simpl. lia.
      - eapply leaves_mono; [|apply IHe]; lia. }
    destruct (decide (c = "{")).
    { destruct (expect "}" r) as [r'|] eqn:E.
      - apply length_expect in E. simpl. lia.
      - eapply leaves_mono; [|apply IHm]; lia. }
    destruct (decide (c = Char.dquote)).
    { eapply leaves_bind; [apply leaves_parse_chars|].
      intros us r' Hr'. simpl. lia. }
    destruct (bool_decide (c = "-") || Char.is_digit c).
    + eapply leaves_mono; [|apply leaves_parse_number]. simpl; lia.
    + eapply leaves_mono; [|apply leaves_parse_literal]. simpl; lia.
  - intros s acc Hn. rewrite parse_elements_S.
    eapply leaves_bind; [apply IHv; lia|]. intros v r Hr.
    destruct (expect "," r) as [r'|] eqn:E.
    + apply length_expect in E. eapply leaves_mono; [|apply IHe]; lia.
    + destruct (expect "]" r) as [r'|] eqn:E'; [|done].
      apply length_expect in E'. simpl. lia.
  - intros s acc Hn. rewrite parse_members_S.
    destruct (expect Char.dquote s) as [r|] eqn:E; [|done].
    apply length_expect in E.
    eapply leaves_bind; [apply leaves_parse_chars|]. intros k r1 Hr1.
    destruct (expect ":" r1) as [r2|] eqn:E1; [|done].
    apply length_expect in E1.
    eapply leaves_bind; [apply IHv; lia|]. intros v r3 Hr3.
    destruct (expect "," r3) as [r4|] eqn:E3.
    + apply length_expect in E3. eapply leaves_mono; [|apply IHm]; lia.
    + destruct (expect "}" r3) as [r4|] eqn:E4; [|done].
      apply length_expect in E4. simpl. lia.
Qed.

(** The fuel [parse_text] supplies is enough for every text. *)
Lemma parse_text_fuel (s : text) : parse_text s ≠ OutOfFuel.
Proof.
  unfold parse_text.
  destruct (leaves_parse (fuel_for s)) as (Hv & _ & _).
  specialize (Hv s). unfold fuel_for in *.
  destruct (parse_value (2 * length s + 1) s) as [[v r]| |]; simpl.
  - by destruct (skip_ws r).
  - done.
  - intros _. apply Hv. lia.
Qed.

(** [JSON.parse] returns [None] only for a text outside the grammar. *)
Lemma parse_None (s : string) :
  parse s = None ↔ parse_text (list_ascii_of_string s) = SyntaxError.
Proof.
  unfold parse. pose proof (parse_text_fuel (list_ascii_of_string s)) as Hf.
  destruct (parse_text (list_ascii_of_string s)); split; done.
Qed.

End JSONTotal.

(** ** Loading *)

Section Loading.
Import JSON.

Lemma map_Book_of_data_values (l : list Book) :
  map_Book_of_data (map value_of_Book l) = Normal (map reloaded l).
Proof.
  induction l as [|b l IH]; [done|].
  cbn [map map_Book_of_data]. by rewrite Book_of_data_value_of_Book, IH.
Qed.

(** Loading a snapshot written by [saveToLocalStorage]. *)
Lemma load_snapshot (this : Library) (w : World) (l : list Book) :
  localStorage w !! localStorageKey this = Some (stringify l) ->
  loadFromLocalStorage this w = Some (set_books (map reloaded l) this, w).
Proof.
  intros Hs. unfold loadFromLocalStorage.
  by rewrite Hs, truthy_stringify, parse_stringify, map_Book_of_data_values.
Qed.

Lemma localStorage_addBook (b : Book) (this : Library) (w : World) :
  localStorage (addBook b this w).2
  = <[localStorageKey this := stringify (books this ++ [b])]> (localStorage w).
Proof. simpl. by rewrite notify_localStorage. Qed.

(** A library constructed after [addBook] holds the books of the first
    one in their order, each rebuilt from its four constructor fields. *)
Lemma reload_after_addBook (b : Book) (this : Library) (w : World) :
  localStorageKey this = "bookLibrary" ->
  Library_new (addBook b this w).2
  = Some (set_books (map reloaded (books this ++ [b])) Library_fields,
          (addBook b this w).2).
Proof.
  intros Hk. apply load_snapshot.
  rewrite localStorage_addBook, Hk. apply lookup_insert_eq.
Qed.

Lemma reloaded_no_genre (b : Book) : genre b = None -> reloaded b = b.
Proof. destruct b; simpl. by intros ->. Qed.

(** A collection without genres is reloaded as it was saved. *)
Lemma reload_without_genre (b : Book) (this : Library) (w : World) :
  localStorageKey this = "bookLibrary" ->
  Forall (λ x, genre x = None) (books this ++ [b]) ->
  fst <$> Library_new (addBook b this w).2
  = Some (set_books (books this ++ [b]) Library_fields).
Proof.
  intros Hk Hg. rewrite reload_after_addBook by done. simpl. do 2 f_equal.
  induction Hg as [|x l Hx _ IH]; [done|].
  simpl. by rewrite reloaded_no_genre, IH.
Qed.

End Loading.

(** C1: at a book built with a genre the reload differs from what was
    saved.  The snapshot written by [addBook] holds the genre, and the
    library constructed over it holds the same book without one. *)
Theorem reload_drops_genre :
  localStorage (addBook Sample.silmarillion (Sample.shelf [] []) Sample.empty_world).2
    !! "bookLibrary"
  = Some (JSON.stringify [Sample.silmarillion])
  ∧ JSON.parse (JSON.stringify [Sample.silmarillion])
    = Some (JSON.Arr
              [JSON.Obj
                 [(JSON.units "title", JSON.Str (JSON.units "The Silmarillion"));
                  (JSON.units "author", JSON.Str (JSON.units "J.R.R. Tolkien"));
                  (JSON.units "year", JSON.Num 1977 0);
                  (JSON.units "id", JSON.Str (JSON.units "s1"));
                  (JSON.units "genre", JSON.Str (JSON.units "Fantasy"))]])
  ∧ books <$> (fst <$> Library_new
                 (addBook Sample.silmarillion (Sample.shelf [] []) Sample.empty_world).2)
    = Some [Book_new "The Silmarillion" "J.R.R. Tolkien" 1977 "s1"]
  ∧ genre Sample.silmarillion = Some "Fantasy"
  ∧ genre (Book_new "The Silmarillion" "J.R.R. Tolkien" 1977 "s1") = None.
Proof.
  split; [reflexivity|]. split; [reflexivity|]. split; [|done].
  by rewrite reload_after_addBook.
Qed.

(** ** Construction *)

(** C4, as stated, fails for a stored empty string: it is present and
    [JSON.parse] rejects it, yet nothing is logged and the key stays. *)
Lemma empty_string_is_left_alone :
  localStorage (Sample.stored "") !! "bookLibrary" = Some ""
  ∧ JSON.parse "" = None
  ∧ Library_new (Sample.stored "") = Some (Library_fields, Sample.stored "")
  ∧ console (Sample.stored "") = []
  ∧ localStorage (Sample.stored "") !! "bookLibrary" ≠ None.
Proof. repeat split; done. Qed.

(** C4, amended: construction ends in one of three ways besides a
    successful load.  When the key is absent, or holds the empty string,
    the collection is empty and nothing else happens.  When the value
    parses to something that is not an array, an error is logged, the
    collection is empty and the store is untouched.  When the value is not
    empty and does not parse, an error is logged, the key is removed and
    the collection is empty. *)
Theorem construction_outcomes (w : World) :
  (localStorage w !! "bookLibrary" = None ∨ localStorage w !! "bookLibrary" = Some "" ->
   Library_new w = Some (Library_fields, w))
  ∧ (∀ s v, localStorage w !! "bookLibrary" = Some s ->
            JSON.parse s = Some v -> (∀ l, v ≠ JSON.Arr l) ->
            ∃ w', Library_new w = Some (Library_fields, w')
                  ∧ console w' = console w ++ [msg_invalid]
                  ∧ localStorage w' = localStorage w
                  ∧ updates w' = updates w)
  ∧ (∀ s, localStorage w !! "bookLibrary" = Some s ->
          s ≠ "" -> JSON.parse s = None ->
          ∃ w', Library_new w = Some (Library_fields, w')
                ∧ console w' = console w ++ [msg_parse]
                ∧ localStorage w' = delete "bookLibrary" (localStorage w)
                ∧ localStorage w' !! "bookLibrary" = None
                ∧ updates w' = updates w).
Proof.
  unfold Library_new, loadFromLocalStorage. simpl localStorageKey.
  split; [|split].
  - intros [-> | ->]; done.
  - intros s v -> Hv Harr. rewrite Hv.
    assert (Str.truthy s = true) as ->.
    { destruct s; [|done]. discriminate Hv. }
    exists (console_error msg_invalid w).
    destruct v; try done. by destruct (Harr l).
  - intros s -> Hs Hp. rewrite Hp.
    assert (Str.truthy s = true) as ->. { by destruct s. }
    eexists. split; [reflexivity|]. simpl.
    split; [done|]. split; [done|]. split; [apply lookup_delete_eq|done].
Qed.

Lemma construction_outcomes_witness :
  Library_new Sample.empty_world = Some (Library_fields, Sample.empty_world)
  ∧ (∃ w', Library_new (Sample.stored Sample.object_text) = Some (Library_fields, w')
           ∧ console w' = console (Sample.stored Sample.object_text) ++ [msg_invalid]
           ∧ localStorage w' = localStorage (Sample.stored Sample.object_text)
           ∧ updates w' = updates (Sample.stored Sample.object_text))
  ∧ (∃ w', Library_new (Sample.stored "not json {") = Some (Library_fields, w')
           ∧ console w' = console (Sample.stored "not json {") ++ [msg_parse]
           ∧ localStorage w'
             = delete "bookLibrary" (localStorage (Sample.stored "not json {"))
           ∧ localStorage w' !! "bookLibrary" = None
           ∧ updates w' = updates (Sample.stored "not json {")).
Proof.
  split; [|split].
  - apply (proj1 (construction_outcomes Sample.empty_world)). by left.
  - apply (proj1 (proj2 (construction_outcomes (Sample.stored Sample.object_text)))
             Sample.object_text (JSON.Obj [(JSON.units "a", JSON.Num 1 0)]));
      [reflexivity|reflexivity|discriminate].
  - apply (proj2 (proj2 (construction_outcomes (Sample.stored "not json {")))
             "not json {"); [reflexivity|discriminate|reflexivity].
Defined.

(** The two stored values the specification tests. *)
Example construction_on_bad_text :
  Library_new (Sample.stored "not json {")
  = Some (Library_fields, mkWorld ∅ [msg_parse] []).
Proof. reflexivity. Qed.

Example construction_on_non_array :
  Library_new (Sample.stored Sample.object_text)
  = Some (Library_fields,
          mkWorld {[ "bookLibrary" := Sample.object_text ]} [msg_invalid] []).
Proof. reflexivity. Qed.

(** * Further properties *)

(** ** Commands *)

(** X1: [AddBookCommand(b)] executed and undone leaves the prior
    collection without its entries of id [b.id], in order: no entry of
    that id is left, whatever the collection held. *)
Theorem add_undo_filters_id (this : Library) (w : World) (b : Book) :
  books (and_then (AddBookCommand.execute (AddBookCommand.new b))
                  (AddBookCommand.undo (AddBookCommand.new b)) this w).1
  = filter (λ x, id x ≠ id b) (books this)
  ∧ Selects (λ x, id x ≠ id b) (books this)
      (books (and_then (AddBookCommand.execute (AddBookCommand.new b))
                       (AddBookCommand.undo (AddBookCommand.new b)) this w).1)
  ∧ Forall (λ x, id x ≠ id b)
      (books (and_then (AddBookCommand.execute (AddBookCommand.new b))
                       (AddBookCommand.undo (AddBookCommand.new b)) this w).1).
Proof.
  assert (books (and_then (AddBookCommand.execute (AddBookCommand.new b))
                          (AddBookCommand.undo (AddBookCommand.new b)) this w).1
          = filter (λ x, id x ≠ id b) (books this)) as ->.
  { unfold and_then, AddBookCommand.execute, AddBookCommand.undo. simpl.
    by rewrite filter_app, filter_id_self, app_nil_r. }
  split; [done|]. split; [apply Selects_filter|].
  apply Forall_forall. intros x Hx. by apply list_elem_of_filter in Hx as [? _].
Qed.

Lemma filter_id_after_removal (b : Book) (l : list Book) :
  filter (λ x, id x = id b) (filter (λ x, id x ≠ id b) l) = [].
Proof.
  induction l as [|x l IH]; [done|].
  destruct (decide (id x = id b)) as [Hx|Hx].
  - by rewrite (filter_cons_False (λ x, id x ≠ id b)) by (intros H; by apply H).
  - rewrite (filter_cons_True (λ x, id x ≠ id b)) by done.
    by rewrite filter_cons_False.
Qed.

(** X2: [RemoveBookCommand(b)] executed and undone leaves [b] as the last
    entry and as the only entry of its id; the entries of other ids keep
    their order. *)
Theorem remove_undo_leaves_one (this : Library) (w : World) (b : Book) :
  books (and_then (RemoveBookCommand.execute (RemoveBookCommand.new b))
                  (RemoveBookCommand.undo (RemoveBookCommand.new b)) this w).1
  = filter (λ x, id x ≠ id b) (books this) ++ [b]
  ∧ last (books (and_then (RemoveBookCommand.execute (RemoveBookCommand.new b))
                          (RemoveBookCommand.undo (RemoveBookCommand.new b)) this w).1)
    = Some b
  ∧ filter (λ x, id x = id b)
      (books (and_then (RemoveBookCommand.execute (RemoveBookCommand.new b))
                       (RemoveBookCommand.undo (RemoveBookCommand.new b)) this w).1)
    = [b].
Proof.
  assert (books (and_then (RemoveBookCommand.execute (RemoveBookCommand.new b))
                          (RemoveBookCommand.undo (RemoveBookCommand.new b)) this w).1
          = filter (λ x, id x ≠ id b) (books this) ++ [b]) as ->.
  { done. }
  split; [done|]. split; [apply last_snoc|].
  rewrite filter_app, filter_cons_True, filter_nil by done.
  by rewrite filter_id_after_removal.
Qed.

(** ** The snapshot follows the collection *)

Section Snapshot.
Implicit Types (this : Library) (w : World) (m : Mutation) (ms : list Mutation).

Lemma localStorageKey_mutate m this w :
  localStorageKey (mutate m this w).1 = localStorageKey this.
Proof. by destruct m. Qed.

Lemma localStorage_mutate m this w :
  localStorage (mutate m this w).2
  = <[localStorageKey this := JSON.stringify (books (mutate m this w).1)]>
      (localStorage w).
Proof. destruct m; simpl; by rewrite notify_localStorage. Qed.

Lemma console_mutate m this w : console (mutate m this w).2 = console w.
Proof. destruct m; simpl; by rewrite notify_console. Qed.

Lemma localStorageKey_mutate_all ms : ∀ this w,
  localStorageKey (mutate_all ms this w).1 = localStorageKey this.
Proof.
  induction ms as [|m ms IH]; intros this w; [done|].
  simpl. unfold and_then.
  pose proof (localStorageKey_mutate m this w) as Hk.
  destruct (mutate m this w) as [this' w']. simpl in Hk. by rewrite IH.
Qed.

Lemma observers_mutate_all ms : ∀ this w,
  observers (mutate_all ms this w).1 = observers this.
Proof.
  induction ms as [|m ms IH]; intros this w; [done|].
  simpl. unfold and_then.
  pose proof (observers_mutate m this w) as Ho.
  destruct (mutate m this w) as [this' w']. simpl in Ho. by rewrite IH.
Qed.




(** X4: a run of [addBook] and [removeBook] calls writes under the
    library's own key only, logs nothing to the console, and leaves the
    registrations and the key of the library as they were. *)
Theorem mutations_touch_own_key_only ms : ∀ this w,
  (∀ k, k ≠ localStorageKey this ->
        localStorage (mutate_all ms this w).2 !! k = localStorage w !! k)
  ∧ console (mutate_all ms this w).2 = console w
  ∧ observers (mutate_all ms this w).1 = observers this
  ∧ localStorageKey (mutate_all ms this w).1 = localStorageKey this.
Proof.
  induction ms as [|m ms IH]; intros this w; [done|].
  simpl. unfold and_then.
  pose proof (localStorageKey_mutate m this w) as Hk.
  pose proof (localStorage_mutate m this w) as Hs.
  pose proof (console_mutate m this w) as Hc.
  pose proof (observers_mutate m this w) as Ho.
  destruct (mutate m this w) as [this' w']. simpl in Hk, Hs, Hc, Ho.
  destruct (IH this' w') as (IH1 & IH2 & IH3 & IH4).
  rewrite IH2, IH3, IH4, Hc, Ho, Hk. split; [|done].
  intros k Hne. rewrite IH1 by (by rewrite Hk). rewrite Hs.
  by apply lookup_insert_ne.
Qed.



End Snapshot.

(** ** Loading, further *)

Section LoadingFurther.
Implicit Types (this : Library) (w : World).

Lemma Book_of_data_Throw (d : JSON.value) :
  Book_of_data d = Throw ↔ d = JSON.Null.
Proof.
  split; [|by intros ->].
  destruct d; try done; unfold Book_of_data; cbn [Get]; repeat case_match; done.
Qed.

Lemma map_Book_of_data_Throw (l : list JSON.value) :
  map_Book_of_data l = Throw ↔ JSON.Null ∈ l.
Proof.
  induction l as [|d l IH]; [split; [done|by intros ?%elem_of_nil]|].
  cbn [map_Book_of_data]. rewrite elem_of_cons, <- IH.
  pose proof (Book_of_data_Throw d) as Hd.
  destruct (Book_of_data d), (map_Book_of_data l);
    (split;
     [ intros H; first [ done | by left; symmetry; apply Hd | by right ]
     | intros [H|H]; first [ done | by symmetry in H; apply Hd in H ] ]).
Qed.



Lemma truthy_parse (s : string) (v : JSON.value) :
  JSON.parse s = Some v -> Str.truthy s = true.
Proof. by destruct s. Qed.

(** X6: when the stored text is an array with a [null] among its
    elements, construction ends in the [catch] block: an error is logged,
    the key is removed and the collection is empty, whatever the other
    elements are. *)
Theorem construction_on_null_element (w : World) (s : string) (l : list JSON.value) :
  localStorage w !! "bookLibrary" = Some s ->
  JSON.parse s = Some (JSON.Arr l) ->
  JSON.Null ∈ l ->
  ∃ w', Library_new w = Some (Library_fields, w')
        ∧ console w' = console w ++ [msg_parse]
        ∧ localStorage w' = delete "bookLibrary" (localStorage w)
        ∧ updates w' = updates w.
Proof.
  intros Hs Hp Hnull. unfold Library_new, loadFromLocalStorage.
  simpl localStorageKey. rewrite Hs, (truthy_parse _ _ Hp), Hp.
  apply map_Book_of_data_Throw in Hnull as ->.
  eexists. split; [reflexivity|done].
Qed.

Lemma construction_on_null_element_witness :
  ∃ w', Library_new (Sample.stored "[1, null]") = Some (Library_fields, w')
        ∧ console w' = console (Sample.stored "[1, null]") ++ [msg_parse]
        ∧ localStorage w' = delete "bookLibrary" (localStorage (Sample.stored "[1, null]"))
        ∧ updates w' = updates (Sample.stored "[1, null]").
Proof.
  apply (construction_on_null_element (Sample.stored "[1, null]") "[1, null]"
           [JSON.Num 1 0; JSON.Null]); [reflexivity|reflexivity|].
  right. left.
Defined.




End LoadingFurther.





(** ** The builder *)

(** X9: [build] returns a book with the four fields the builder was
    constructed with, and the genre of the last [setGenre] call, or none
    when [setGenre] was never called. *)
Theorem build_after_setGenres (t a : string) (y : Z) (i : string) (gs : list string) :
  BookBuilder.build
    (foldl (λ b g, BookBuilder.setGenre g b) (BookBuilder.new t a y i) gs)
  = {| title := t; author := a; year := y; id := i; genre := last gs |}.
Proof.
  assert (∀ b, BookBuilder.build (foldl (λ b g, BookBuilder.setGenre g b) b gs)
               = {| title := BookBuilder.b_title b; author := BookBuilder.b_author b;
                    year := BookBuilder.b_year b; id := BookBuilder.b_id b;
                    genre := match last gs with
                             | Some g => Some g
                             | None => BookBuilder.b_genre b
                             end |}) as H.
  { induction gs as [|g gs IH]; intros b; [done|].
    cbn [foldl]. rewrite IH. cbn [BookBuilder.setGenre BookBuilder.b_title
      BookBuilder.b_author BookBuilder.b_year BookBuilder.b_id BookBuilder.b_genre].
    destruct gs as [|g' gs]; [done|].
    change (last (g :: g' :: gs)) with (last (g' :: gs)).
    destruct (last (g' :: gs)) eqn:E; [done|]. by apply last_None in E. }
  rewrite H. simpl. by destruct (last gs).
Qed.

(** ** Searching, further *)

Lemma filter_all {A} (P : A -> Prop) `{!∀ x, Decision (P x)} (l : list A) :
  (∀ x, P x) -> filter P l = l.
Proof.
  intros HP. induction l as [|x l IH]; [done|].
  by rewrite filter_cons_True, IH.
Qed.

(** X10: whatever strategy the manager is given, the result of a search
    is a sublist of the collection searched: no book is made up, repeated
    or moved. *)
Theorem search_result_is_sublist
    (m : SearchManager.t) (books : list Book) (query : string) :
  SearchManager.search (SearchManager.setStrategy byTitle m) books query
    `sublist_of` books
  ∧ SearchManager.search (SearchManager.setStrategy byAuthor m) books query
      `sublist_of` books
  ∧ SearchManager.search (SearchManager.setStrategy byYear m) books query
      `sublist_of` books.
Proof.
  split; [apply sublist_filter|]. split; [apply sublist_filter|].
  change (YearSearchStrategy.search books query `sublist_of` books).
  unfold YearSearchStrategy.search.
  destruct (ParseInt.parseInt query); [apply sublist_filter|apply sublist_nil_l].
Qed.

(** X11: with an empty query the title strategy and the author strategy
    return the whole collection, and the year strategy returns nothing. *)
Theorem search_with_empty_query (books : list Book) :
  TitleSearchStrategy.search books "" = books
  ∧ AuthorSearchStrategy.search books "" = books
  ∧ YearSearchStrategy.search books "" = [].
Proof.
  assert (∀ s, Str.includes s (Str.toLowerCase "") = true) as H.
  { intros [|c s]; reflexivity. }
  split; [|split; [|done]]; apply filter_all; intros b; apply H.
Qed.



(** *** [parseInt] around a numeral *)

Section ParseIntAround.
Import ParseInt.







End ParseIntAround.

(** ** Registrations and removals, further *)

Lemma filter_Forall {A} (P : A -> Prop) `{!∀ x, Decision (P x)} (l : list A) :
  Forall P l -> filter P l = l.
Proof.
  induction 1 as [|x l Hx _ IH]; [done|]. by rewrite filter_cons_True, IH.
Qed.

(** X14: detaching an observer that is not registered changes nothing,
    so attaching such an observer and detaching it again restores the
    library. *)
Theorem detach_unregistered (this : Library) (o : IObserver) :
  o ∉ observers this ->
  detach o this = this ∧ detach o (attach o this) = this.
Proof.
  intros Ho.
  assert (filter (λ obs, obs ≠ o) (observers this) = observers this) as Hf.
  { apply filter_Forall, Forall_forall. intros o' Ho' ->. done. }
  destruct this as [bs os k]. unfold detach, attach, set_observers. simpl in *.
  rewrite filter_app, Hf, filter_cons_False, filter_nil, app_nil_r by auto.
  done.
Qed.

Lemma detach_unregistered_witness :
  detach 3%nat (Sample.shelf [Sample.hobbit] [1%nat; 2%nat])
  = Sample.shelf [Sample.hobbit] [1%nat; 2%nat]
  ∧ detach 3%nat (attach 3%nat (Sample.shelf [Sample.hobbit] [1%nat; 2%nat]))
    = Sample.shelf [Sample.hobbit] [1%nat; 2%nat].
Proof.
  apply (detach_unregistered (Sample.shelf [Sample.hobbit] [1%nat; 2%nat]) 3%nat).
  simpl. intros H. repeat (apply elem_of_cons in H as [H|H]; [discriminate H|]).
  by apply elem_of_nil in H.
Defined.

(** X15: removing by the same id twice is removing once, and two
    removals give the same collection in either order. *)
Theorem removeBook_idempotent_and_commutes
    (this : Library) (w : World) (a b : Book) :
  books (and_then (removeBook b) (removeBook b) this w).1
  = books (removeBook b this w).1
  ∧ books (and_then (removeBook a) (removeBook b) this w).1
    = books (and_then (removeBook b) (removeBook a) this w).1.
Proof.
  unfold and_then. simpl.
  rewrite !list_filter_filter. split; apply list_filter_iff; intros x; tauto.
Qed.

(** X16: a run of [n] mutations on a library with [k] registrations
    makes [n * k] calls of [update], whatever the mutations do to the
    collection. *)
Theorem mutations_call_count (ms : list Mutation) : ∀ (this : Library) (w : World),
  length (updates (mutate_all ms this w).2)
  = (length (updates w) + length ms * length (observers this))%nat.
Proof.
  induction ms as [|m ms IH]; intros this w; [simpl; lia|].
  simpl. unfold and_then.
  pose proof (updates_mutate m this w) as Hu.
  pose proof (observers_mutate m this w) as Ho.
  destruct (mutate m this w) as [this' w']. simpl in Hu, Ho.
  rewrite IH, Hu, Ho, length_app, length_map. lia.
Qed.

(** ** The page *)

Section Page.
Import App.
Implicit Types (p : page) (m : Mutation).

Lemma deliver_one (o : IObserver) (l : list Book) (c : DOM.content) :
  DOMObserver.deliver o [mkUpdate o l] c = DOMObserver.render l.
Proof. unfold DOMObserver.deliver. simpl. by destruct (decide (o = o)). Qed.

(** A mutation called from a handler, when the observer of the page is
    the only one registered: the list is drawn again from the new
    collection. *)
Lemma call_mutate m p :
  observers (library p) = [domObserver p] ->
  call (mutate m) p
  = {| library := (mutate m (library p) (browser p)).1;
       browser := (mutate m (library p) (browser p)).2;
       domObserver := domObserver p;
       bookList := DOMObserver.render (books (mutate m (library p) (browser p)).1);
       searchManager := searchManager p; inputs := inputs p; alerts := alerts p |}.
Proof.
  intros Ho. unfold call.
  pose proof (updates_mutate m (library p) (browser p)) as Hu.
  destruct (mutate m (library p) (browser p)) as [l' w']. simpl in *.
  rewrite Hu, drop_app_length, Ho. cbn [map]. by rewrite deliver_one.
Qed.




Lemma buttonless_show_results (l : list Book) : buttonless (show_results l).
Proof.
  destruct l as [|b l]; [done|]. unfold show_results, buttonless.
  apply Forall_forall. intros it Hit.
  by apply list_elem_of_fmap in Hit as (b' & -> & _).
Qed.







(** X19: a click on Add with an empty title, an empty author, or a year
    in which [parseInt] finds no number shows one alert and does nothing
    else: the library, the store, the list and the form are as before. *)
Theorem add_click_rejects_bad_fields (id : string) p :
  title_value (inputs p) = "" ∨ author_value (inputs p) = ""
  ∨ ParseInt.parseInt (year_value (inputs p)) = None ->
  addBookBtn_click id p = alert msg_fill p
  ∧ library (addBookBtn_click id p) = library p
  ∧ browser (addBookBtn_click id p) = browser p
  ∧ bookList (addBookBtn_click id p) = bookList p
  ∧ inputs (addBookBtn_click id p) = inputs p
  ∧ alerts (addBookBtn_click id p) = alerts p ++ [msg_fill].
Proof.
  intros H.
  assert (addBookBtn_click id p = alert msg_fill p) as ->; [|done].
  unfold addBookBtn_click.
  destruct (ParseInt.parseInt _) as [y|]; [|done].
  destruct H as [-> | [-> | H]]; [done| |done].
  by rewrite orb_true_r.
Qed.

Lemma add_click_rejects_bad_fields_witness :
  addBookBtn_click "d1" (SamplePage.with_inputs (SamplePage.typed "Dune" "Frank Herbert" "soon"))
  = alert msg_fill (SamplePage.with_inputs (SamplePage.typed "Dune" "Frank Herbert" "soon"))
  ∧ library (addBookBtn_click "d1"
               (SamplePage.with_inputs (SamplePage.typed "Dune" "Frank Herbert" "soon")))
    = library (SamplePage.with_inputs (SamplePage.typed "Dune" "Frank Herbert" "soon"))
  ∧ browser (addBookBtn_click "d1"
               (SamplePage.with_inputs (SamplePage.typed "Dune" "Frank Herbert" "soon")))
    = browser (SamplePage.with_inputs (SamplePage.typed "Dune" "Frank Herbert" "soon"))
  ∧ bookList (addBookBtn_click "d1"
                (SamplePage.with_inputs (SamplePage.typed "Dune" "Frank Herbert" "soon")))
    = bookList (SamplePage.with_inputs (SamplePage.typed "Dune" "Frank Herbert" "soon"))
  ∧ inputs (addBookBtn_click "d1"
              (SamplePage.with_inputs (SamplePage.typed "Dune" "Frank Herbert" "soon")))
    = inputs (SamplePage.with_inputs (SamplePage.typed "Dune" "Frank Herbert" "soon"))
  ∧ alerts (addBookBtn_click "d1"
              (SamplePage.with_inputs (SamplePage.typed "Dune" "Frank Herbert" "soon")))
    = alerts (SamplePage.with_inputs (SamplePage.typed "Dune" "Frank Herbert" "soon"))
      ++ [msg_fill].
Proof.
  apply (add_click_rejects_bad_fields "d1"
           (SamplePage.with_inputs (SamplePage.typed "Dune" "Frank Herbert" "soon"))).
  right. right. reflexivity.
Defined.



Lemma strategy_of_is_Some (key : string) :
  is_Some (strategy_of key) ↔ key ∈ ["title"; "author"; "year"].
Proof.
  unfold strategy_of. rewrite !elem_of_cons, elem_of_nil.
  destruct (decide (key = "title")); [by split; [left|eexists]|].
  destruct (decide (key = "author")); [by split; [right; left|eexists]|].
  destruct (decide (key = "year")); [by split; [right; right; left|eexists]|].
  split; [by intros [? ?]|tauto].
Qed.

(** X21: a click on Search never touches the library, the store or the
    form.  With a strategy name other than [title], [author] and [year]
    it shows one alert and leaves the list; otherwise it shows no alert
    and fills the list with the matching books in order, without Delete
    buttons, or with the no-books markup when there is no match. *)
Theorem search_click_is_read_only p :
  library (searchBtn_click p) = library p
  ∧ browser (searchBtn_click p) = browser p
  ∧ inputs (searchBtn_click p) = inputs p
  ∧ match strategy_of (searchStrategy_value (inputs p)) with
    | None =>
        (searchStrategy_value (inputs p) ∉ ["title"; "author"; "year"])
        ∧ searchBtn_click p = alert msg_strategy p
    | Some s =>
        searchStrategy_value (inputs p) ∈ ["title"; "author"; "year"]
        ∧ alerts (searchBtn_click p) = alerts p
        ∧ bookList (searchBtn_click p)
          = show_results (search s (books (library p)) (searchQuery_value (inputs p)))
        ∧ buttonless (bookList (searchBtn_click p))
        ∧ (bookList (searchBtn_click p) = DOM.Markup no_books_found
           ↔ search s (books (library p)) (searchQuery_value (inputs p)) = [])
    end.
Proof.
  unfold searchBtn_click.
  pose proof (strategy_of_is_Some (searchStrategy_value (inputs p))) as Hkey.
  destruct (strategy_of (searchStrategy_value (inputs p))) as [s|].
  - do 3 (split; [done|]). split; [by apply Hkey|]. do 2 (split; [done|]).
    split; [apply buttonless_show_results|].
    cbn [bookList].
    change (SearchManager.search (SearchManager.setStrategy s (searchManager p))
              (getBooks (library p)) (searchQuery_value (inputs p)))
      with (search s (books (library p)) (searchQuery_value (inputs p))).
    destruct (search s (books (library p)) (searchQuery_value (inputs p)));
      split; done.
  - do 3 (split; [done|]). split; [|done].
    intros Hin. apply Hkey in Hin. by destruct Hin.
Qed.

(** X22: the items a search leaves in the list have no Delete button, so
    a click at any position of that list changes nothing. *)
Theorem no_delete_from_search_results (i : nat) p :
  searchStrategy_value (inputs p) ∈ ["title"; "author"; "year"] ->
  deleteButton_click i (searchBtn_click p) = searchBtn_click p.
Proof.
  intros Hkey. unfold searchBtn_click.
  apply strategy_of_is_Some in Hkey as [s ->].
  unfold deleteButton_click. simpl.
  pose proof (buttonless_show_results
                (search s (books (library p)) (searchQuery_value (inputs p)))) as Hb.
  destruct (show_results _) as [l|]; [|done].
  destruct (l !! i) as [[mk [book|]]|] eqn:El; try done.
  apply list_elem_of_lookup_2 in El. simpl in Hb.
  eapply Forall_forall in Hb; [|done]. done.
Qed.

Lemma no_delete_from_search_results_witness :
  deleteButton_click 0%nat
    (searchBtn_click (SamplePage.with_inputs (SamplePage.typed "" "" "")))
  = searchBtn_click (SamplePage.with_inputs (SamplePage.typed "" "" "")).
Proof.
  apply (no_delete_from_search_results 0%nat
           (SamplePage.with_inputs (SamplePage.typed "" "" ""))).
  by left.
Defined.

(** X23: while the list shows the collection, a click on the Delete
    button of the item at position [i] removes every book with the id of
    the book shown there, writes the snapshot and draws the list again;
    without an item at that position nothing happens. *)
Theorem delete_click_removes_shown_book (i : nat) p :
  observers (library p) = [domObserver p] ->
  shows_collection p ->
  match books (library p) !! i with
  | Some b =>
      books (library (deleteButton_click i p))
      = filter (λ x, id x ≠ id b) (books (library p))
      ∧ localStorage (browser (deleteButton_click i p)) !! localStorageKey (library p)
        = Some (JSON.stringify (books (library (deleteButton_click i p))))
      ∧ shows_collection (deleteButton_click i p)
      ∧ inputs (deleteButton_click i p) = inputs p
      ∧ alerts (deleteButton_click i p) = alerts p
  | None => deleteButton_click i p = p
  end.
Proof.
  intros Ho Hshow. unfold deleteButton_click. rewrite Hshow.
  unfold DOMObserver.render. rewrite list_lookup_fmap.
  destruct (books (library p) !! i) as [b|]; [|done]. simpl.
  change (RemoveBookCommand.execute (RemoveBookCommand.new b)) with (mutate (Remove b)).
  rewrite call_mutate by done. unfold shows_collection. simpl.
  split; [done|]. split; [|done].
  rewrite notify_localStorage. simpl. apply lookup_insert_eq.
Qed.

Lemma delete_click_removes_shown_book_witness :
  books (library (deleteButton_click 0%nat SamplePage.loaded))
  = filter (λ x, id x ≠ id Sample.hobbit) (books (library SamplePage.loaded))
  ∧ localStorage (browser (deleteButton_click 0%nat SamplePage.loaded))
      !! localStorageKey (library SamplePage.loaded)
    = Some (JSON.stringify (books (library (deleteButton_click 0%nat SamplePage.loaded))))
  ∧ shows_collection (deleteButton_click 0%nat SamplePage.loaded)
  ∧ inputs (deleteButton_click 0%nat SamplePage.loaded) = inputs SamplePage.loaded
  ∧ alerts (deleteButton_click 0%nat SamplePage.loaded) = alerts SamplePage.loaded.
Proof.
  apply (delete_click_removes_shown_book 0%nat SamplePage.loaded); reflexivity.
Defined.

End Page.
